(** * EFNMR spectrometer host program ([NMR.py]): a shallow embedding

    The host program talks to a Pico over a serial line
    ([serial_worker]), hands decoded ADC samples to the plotting side
    through [data_queue], and redraws a time-domain and a
    frequency-domain line on every animation tick ([update_plot]).

    Conventions of the embedding:
    - Python [int] is [Z]; a received byte is [Byte.byte];
    - Python [float] is IEEE binary64, taken from [SpecFloat] with
      precision 53 and [emax] 1024, so that the rounding of
      [SAMPLE_RATE * (read_ms / 1000.0)] is the one the interpreter performs;
    - numpy's frequency axis is kept in exact rationals [Q] and numpy's
      transform in [R]: rounding inside numpy is not modelled;
    - the serial device, the other thread and the operator are an
      environment that answers each call of the worker. *)

From Stdlib Require Import ZArith List Bool Lia ZifyNat String Ascii.
From Stdlib.Strings Require Import Byte.
From Stdlib Require Import QArith Reals.
From Stdlib Require Import SpecFloat DecimalString DecimalPos.
Import ListNotations.

Local Open Scope Z_scope.

(** ** Configuration (module level constants of [NMR.py]) *)

Definition SERIAL_PORT : string := "/dev/ttyACM0".
Definition BAUD_RATE : Z := 115200.
Definition SAMPLE_RATE : Z := 10000.

(** ** Wire frames *)

Module Wire.

(** [struct.unpack('<H', raw_bytes)]: two bytes, least significant first. *)
Definition unpack_H (b0 b1 : byte) : Z :=
  Z.of_N (Byte.to_N b0) + 256 * Z.of_N (Byte.to_N b1).

Definition byte_of_Z (z : Z) : byte :=
  match Byte.of_N (Z.to_N (z mod 256)) with
  | Some b => b
  | None => x00
  end.

(** The device's side of the same format, [struct.pack('<H', raw)]. *)
Definition pack_H (raw : Z) : list byte :=
  [byte_of_Z raw; byte_of_Z (raw / 256)].

(** [value = sample & 0x0FFF] *)
Definition mask_sync (sample : Z) : Z := Z.land sample 0x0FFF.

(** The body of the streaming loop on what [ser.read(2)] returned: a full
    frame gives the value put on the queue, anything else ends the stream. *)
Definition decode (raw_bytes : list byte) : option Z :=
  match raw_bytes with
  | [b0; b1] => Some (mask_sync (unpack_H b0 b1))
  | _ => None
  end.

End Wire.

(** ** Text: the [str] operations the program uses *)

Module Text.

Local Open Scope N_scope.

(** Characters removed by [str.strip()] (code points below 256). *)
Definition is_space (c : ascii) : bool :=
  let n := N_of_ascii c in
  ((9 <=? n) && (n <=? 13)) || ((28 <=? n) && (n <=? 32))
  || (n =? 133) || (n =? 160).

Fixpoint lstrip (s : list ascii) : list ascii :=
  match s with
  | [] => []
  | c :: s' => if is_space c then lstrip s' else s
  end.

Definition strip (s : string) : string :=
  string_of_list_ascii
    (rev (lstrip (rev (lstrip (list_ascii_of_string s))))).

(** [needle in hay] on strings. *)
Fixpoint contains (needle hay : string) : bool :=
  String.prefix needle hay
  || match hay with
     | EmptyString => false
     | String _ hay' => contains needle hay'
     end.

(** [bool(line)] *)
Definition truthy (s : string) : bool :=
  match s with
  | EmptyString => false
  | String _ _ => true
  end.

Definition newline : string := String (ascii_of_N 10) EmptyString.

(** [str(n)] for an [int]. *)
Definition str (n : Z) : string := NilZero.string_of_int (Z.to_int n).




End Text.

(** ** Python floats *)

Module F64.

Definition prec : Z := 53.
Definition emax : Z := 1024.
Definition float : Type := spec_float.

(** Conversion of an [int] operand; [None] is [OverflowError]. *)
Definition of_int (z : Z) : option float :=
  match binary_normalize prec emax z 0 false with
  | S754_infinity _ => None
  | f => Some f
  end.

Definition mul : float -> float -> float := SFmul prec emax.
Definition div : float -> float -> float := SFdiv prec emax.

(** The literal [1000.0]. *)
Definition f1000 : float := binary_normalize prec emax 1000 0 false.

(** [z < f] for an [int] and a [float]: Python compares the exact values. *)
Definition int_lt (z : Z) (f : float) : bool :=
  match f with
  | S754_nan => false
  | S754_infinity s => negb s
  | S754_zero _ => z <? 0
  | S754_finite s m e =>
      let v := if s then Z.neg m else Z.pos m in
      if 0 <=? e then z <? v * 2 ^ e else z * 2 ^ (- e) <? v
  end.

End F64.

(** ** The serial worker and its environment *)

(** What one [ser.readline()] hands back, seen after decoding. *)
Inductive line_in :=
| Line (s : string)
  (** the bytes received up to the newline, or up to the read timeout
      (then possibly none), valid UTF-8 *)
| Garbled (lossy : string)
  (** bytes that are not valid UTF-8; [lossy] is what
      [decode('utf-8', errors='ignore')] keeps of them *)
| LineFault (msg : string).
  (** [serial.SerialException] *)

(** What one [ser.read(2)] hands back: two bytes, or fewer on timeout. *)
Inductive read_in :=
| Got (raw_bytes : list byte)
| ReadFault (msg : string).

(** The device, the operator and the plotting thread, as the worker
    meets them: each field answers one kind of call, in call order. *)
Record Env := {
  port_fault : option string;   (* [serial.Serial(...)], [flushInput()] *)
  ready_line : line_in;         (* the first [readline()] *)
  write_fault : option string;  (* [ser.write(...)] *)
  status_line : nat -> line_in; (* the i-th [readline()] of the status loop *)
  data_read : nat -> read_in;   (* the j-th [ser.read(2)] *)
  stop_seen : nat -> bool       (* the k-th [stop_event.is_set()] *)
}.

(** What the worker leaves behind. *)
Record World := {
  console : list string;    (* lines printed, oldest first *)
  port_opened : bool;       (* [serial.Serial] was called *)
  port_out : list string;   (* what was written to the port *)
  data_queue : list Z;      (* values put on the queue, oldest first *)
  stop_event : bool         (* set by the worker *)
}.

Definition fresh : World :=
  {| console := []; port_opened := false; port_out := [];
     data_queue := []; stop_event := false |}.

Definition print (s : string) (w : World) : World :=
  {| console := console w ++ [s]; port_opened := port_opened w;
     port_out := port_out w; data_queue := data_queue w;
     stop_event := stop_event w |}.

Definition open_port (w : World) : World :=
  {| console := console w; port_opened := true;
     port_out := port_out w; data_queue := data_queue w;
     stop_event := stop_event w |}.

Definition write (s : string) (w : World) : World :=
  {| console := console w; port_opened := port_opened w;
     port_out := port_out w ++ [s]; data_queue := data_queue w;
     stop_event := stop_event w |}.

Definition put (v : Z) (w : World) : World :=
  {| console := console w; port_opened := port_opened w;
     port_out := port_out w; data_queue := data_queue w ++ [v];
     stop_event := stop_event w |}.

Definition set_stop (w : World) : World :=
  {| console := console w; port_opened := port_opened w;
     port_out := port_out w; data_queue := data_queue w;
     stop_event := true |}.

Inductive exn :=
| SerialException (msg : string)
| UnicodeDecodeError
| OverflowError.

(** How the body of the [try] block is left. *)
Inductive flow :=
| NoReady    (* the [return] under the handshake test *)
| Completed  (* the end of the [with] block *)
| Raise (e : exn).

(** The literal tested against the first line; it is the empty string in
    the source. *)
Definition READY_TOKEN : string := EmptyString.
Definition START_MARKER : string := "Starting data read".

(** [f"NMR({pulse_ms},{read_ms})\n"] *)
Definition command (pulse_ms read_ms : Z) : string :=
  ("NMR(" ++ Text.str pulse_ms ++ "," ++ Text.str read_ms ++ ")"
   ++ Text.newline)%string.

(** [SAMPLE_RATE * (read_ms / 1000.0)] *)
Definition samples_to_read (read_ms : Z) : option F64.float :=
  match F64.of_int read_ms, F64.of_int SAMPLE_RATE with
  | Some r, Some rate => Some (F64.mul rate (F64.div r F64.f1000))
  | _, _ => None
  end.

(** The status loop, from its [i]-th turn on.  A turn polls the stop
    flag, reads a line and prints it when it is not blank.  [None]: the
    loop is still turning after [fuel] turns. *)
Fixpoint status_loop (fuel : nat) (e : Env) (i : nat) (w : World)
  : option (option exn * nat * World) :=
  match fuel with
  | O => None
  | S fuel' =>
      if stop_seen e i then Some (None, S i, w)
      else
        match status_line e i with
        | LineFault msg => Some (Some (SerialException msg), S i, w)
        | Line s | Garbled s =>
            let line := Text.strip s in
            if Text.truthy line then
              let w' := print line w in
              if Text.contains START_MARKER line then Some (None, S i, w')
              else status_loop fuel' e (S i) w'
            else status_loop fuel' e (S i) w
        end
  end.

(** The streaming loop.  [k] counts the polls of the stop flag made so
    far, [samples_read] the frames read so far. *)
Fixpoint stream_loop (fuel : nat) (e : Env) (target : F64.float)
    (k samples_read : nat) (w : World) : option (option exn * World) :=
  match fuel with
  | O => None
  | S fuel' =>
      if negb (stop_seen e k)
         && F64.int_lt (Z.of_nat samples_read) target then
        match data_read e samples_read with
        | ReadFault msg => Some (Some (SerialException msg), w)
        | Got raw_bytes =>
            match Wire.decode raw_bytes with
            | Some value =>
                stream_loop fuel' e target (S k) (S samples_read) (put value w)
            | None => Some (None, w)
            end
        end
      else Some (None, w)
  end.

(** The [try] block, generic in the token tested against the first line. *)
Definition worker_body (token : string) (fuel : nat) (e : Env)
    (pulse_ms read_ms : Z) (w0 : World) : option (flow * World) :=
  let w := print ("Connecting to Pico on " ++ SERIAL_PORT ++ "...") w0 in
  let w := open_port w in
  match port_fault e with
  | Some msg => Some (Raise (SerialException msg), w)
  | None =>
      match ready_line e with
      | LineFault msg => Some (Raise (SerialException msg), w)
      | Garbled _ => Some (Raise UnicodeDecodeError, w)
      | Line s =>
          let initial_message := Text.strip s in
          let w := print ("Pico says: '" ++ initial_message ++ "'") w in
          if negb (Text.contains token initial_message) then
            Some (NoReady,
                  print "Error: Did not receive ready message from Pico." w)
          else
            let cmd := command pulse_ms read_ms in
            let w := print ("--> Sending command to Pico: " ++ Text.strip cmd)
                           w in
            match write_fault e with
            | Some msg => Some (Raise (SerialException msg), w)
            | None =>
                let w := write cmd w in
                match status_loop fuel e 0 w with
                | None => None
                | Some (Some ex, _, w) => Some (Raise ex, w)
                | Some (None, k, w) =>
                    match samples_to_read read_ms with
                    | None => Some (Raise OverflowError, w)
                    | Some target =>
                        match stream_loop fuel e target k 0 w with
                        | None => None
                        | Some (Some ex, w) => Some (Raise ex, w)
                        | Some (None, w) =>
                            Some (Completed,
                                  print "--- Serial worker finished. ---" w)
                        end
                    end
                end
            end
      end
  end.

(** [except serial.SerialException as e] followed by [finally]. *)
Definition handlers (r : flow * World) : flow * World :=
  let (f, w) := r in
  let w :=
    match f with
    | Raise (SerialException msg) => print ("SERIAL ERROR: " ++ msg) w
    | _ => w
    end in
  (f, set_stop w).

Definition serial_worker_with (token : string) (fuel : nat) (e : Env)
    (pulse_ms read_ms : Z) : option (flow * World) :=
  option_map handlers (worker_body token fuel e pulse_ms read_ms fresh).

(** [serial_worker(pulse_ms, read_ms, stop_event)] as the source has it. *)
Definition serial_worker (fuel : nat) (e : Env) (pulse_ms read_ms : Z)
  : option (flow * World) :=
  serial_worker_with READY_TOKEN fuel e pulse_ms read_ms.

(** ** The command line *)








(** ** The queue between the two threads *)

Module Queue.

(** [queue.Queue] as the program uses it: [put] at the tail, [empty],
    [get] at the head. *)
Definition put (v : Z) (q : list Z) : list Z := q ++ [v].

Definition empty (q : list Z) : bool :=
  match q with
  | [] => true
  | _ :: _ => false
  end.

(** [None]: [get] on an empty queue blocks. *)
Definition get (q : list Z) : option (Z * list Z) :=
  match q with
  | [] => None
  | v :: q' => Some (v, q')
  end.

(** [while not data_queue.empty(): new_data.append(data_queue.get())],
    run without the producer in between. *)
Fixpoint drain_loop (fuel : nat) (q new_data : list Z) : list Z * list Z :=
  match fuel with
  | O => (new_data, q)
  | S fuel' =>
      if empty q then (new_data, q)
      else
        match get q with
        | Some (v, q') => drain_loop fuel' q' (new_data ++ [v])
        | None => (new_data, q)
        end
  end.

(** One drain: the batch [new_data] and the queue left behind. *)
Definition drain (q : list Z) : list Z * list Z :=
  drain_loop (S (List.length q)) q [].

(** Pushes interleaved with whole drains. *)
Inductive op :=
| Push (v : Z)
| Drain.

(** Runs [ops] on queue [q]; gives the batches of the drains, in order,
    and the queue at the end. *)
Fixpoint run (ops : list op) (q : list Z) : list (list Z) * list Z :=
  match ops with
  | [] => ([], q)
  | Push v :: ops' => run ops' (put v q)
  | Drain :: ops' =>
      let (batch, q') := drain q in
      let (batches, q'') := run ops' q' in
      (batch :: batches, q'')
  end.

Fixpoint pushed (ops : list op) : list Z :=
  match ops with
  | [] => []
  | Push v :: ops' => v :: pushed ops'
  | Drain :: ops' => pushed ops'
  end.

(** The same loop with the producer running between any two queue
    calls of the consumer. *)
Inductive pc :=
| Idle                          (* outside [update_plot] *)
| AtEmpty (new_data : list Z)   (* about to call [data_queue.empty()] *)
| AtGet (new_data : list Z).    (* about to call [data_queue.get()] *)

Record sys := {
  queue : list Z;
  consumer : pc;
  batches : list (list Z)   (* the [new_data] of the drains completed *)
}.

Inductive event :=
| EvPut (v : Z)   (* the worker calls [data_queue.put(v)] *)
| EvTick          (* the animation timer calls [update_plot] *)
| EvStep.         (* the consumer makes its next queue call *)

Definition step (s : sys) (ev : event) : sys :=
  match ev with
  | EvPut v =>
      {| queue := put v (queue s); consumer := consumer s;
         batches := batches s |}
  | EvTick =>
      match consumer s with
      | Idle =>
          {| queue := queue s; consumer := AtEmpty []; batches := batches s |}
      | _ => s
      end
  | EvStep =>
      match consumer s with
      | Idle => s
      | AtEmpty new_data =>
          if empty (queue s) then
            {| queue := queue s; consumer := Idle;
               batches := batches s ++ [new_data] |}
          else
            {| queue := queue s; consumer := AtGet new_data;
               batches := batches s |}
      | AtGet new_data =>
          match get (queue s) with
          | Some (v, q') =>
              {| queue := q'; consumer := AtEmpty (new_data ++ [v]);
                 batches := batches s |}
          | None => s
          end
      end
  end.

Definition start : sys := {| queue := []; consumer := Idle; batches := [] |}.

Definition exec (evs : list event) : sys := fold_left step evs start.

Fixpoint sent (evs : list event) : list Z :=
  match evs with
  | [] => []
  | EvPut v :: evs' => v :: sent evs'
  | _ :: evs' => sent evs'
  end.

(** What the consumer holds of a drain it has not finished. *)
Definition in_hand (c : pc) : list Z :=
  match c with
  | Idle => []
  | AtEmpty new_data | AtGet new_data => new_data
  end.

(** Every sample the system holds, oldest first: drained, in hand,
    queued. *)
Definition content (s : sys) : list Z :=
  List.concat (batches s) ++ in_hand (consumer s) ++ queue s.

End Queue.

(** ** numpy, as far as [update_plot] uses it *)

Module Np.

(** [np.arange(n)] *)
Definition arange (n : nat) : list Z := map Z.of_nat (seq 0 n).

(** The integer array [results] that [np.fft.fftfreq(n, d)] fills before
    scaling: [0 .. (n-1)//2] followed by [-(n//2) .. -1]. *)
Definition fftfreq_bins (n : nat) : list Z :=
  let N := Z.to_nat ((Z.of_nat n - 1) / 2 + 1) in
  arange N ++ map (fun i => Z.of_nat i - Z.of_nat n / 2) (seq 0 (n / 2)).

(** [np.fft.fftfreq(n, d)]: [results * (1.0 / (n * d))]. *)
Definition fftfreq (n : nat) (d : Q) : list Q :=
  let val := (1 / (inject_Z (Z.of_nat n) * d))%Q in
  map (fun k => (inject_Z k * val)%Q) (fftfreq_bins n).

(** [np.where(a >= 0)]: the positions of the entries that pass. *)
Definition where_ge0 (a : list Q) : list nat :=
  filter (fun i => Qle_bool 0 (nth i a 0%Q)) (seq 0 (List.length a)).

(** [a[indices]] *)
Definition take {A : Type} (d : A) (a : list A) (indices : list nat)
  : list A :=
  map (fun i => nth i a d) indices.

(** Complex numbers as pairs of reals. *)
Definition complex : Type := (R * R)%type.

(** The coefficient [k] of the discrete Fourier transform of [a]:
    the sum over [m] of [a[m] * exp(-2 pi i k m / n)]. *)
Definition dft_coefficient (a : list Z) (k : nat) : complex :=
  let n := List.length a in
  fold_right
    (fun (mx : nat * Z) (acc : complex) =>
       let (m, x) := mx in
       let angle := (2 * PI * INR k * INR m / INR n)%R in
       ((fst acc + IZR x * cos angle)%R, (snd acc - IZR x * sin angle)%R))
    (0%R, 0%R)
    (combine (seq 0 n) a).

(** [np.fft.fft(a)] *)
Definition fft (a : list Z) : list complex :=
  map (dft_coefficient a) (seq 0 (List.length a)).

(** [np.abs] on one coefficient. *)
Definition abs (c : complex) : R :=
  sqrt (fst c * fst c + snd c * snd c).

End Np.

(** ** The plot and its refresh step *)

Record Line2D (X Y : Type) := {
  xdata : list X;
  ydata : list Y
}.
Arguments xdata {X Y} _.
Arguments ydata {X Y} _.

(** What [update_plot] works on besides the queue. *)
Record Plot := {
  all_samples : list Z;
  line_time : Line2D Z Z;
  line_fft : Line2D Q R;
  ax_time_rescaled : nat;  (* [relim(); autoscale_view()] calls on [ax_time] *)
  ax_fft_rescaled : nat    (* the same on [ax_fft] *)
}.

(** The plot as [main] sets it up: both lines from [plot([], [])]. *)
Definition blank : Plot :=
  {| all_samples := [];
     line_time := {| xdata := []; ydata := [] |};
     line_fft := {| xdata := []; ydata := [] |};
     ax_time_rescaled := 0;
     ax_fft_rescaled := 0 |}.

(** The frequency-domain branch of [update_plot]: [None] when the test
    [len(all_samples) > 1] fails and the branch is skipped. *)
Definition spectral_frame (samples : list Z) : option (Line2D Q R) :=
  if (1 <? List.length samples)%nat then
    let fft_result := Np.fft samples in
    let fft_magnitude := map Np.abs fft_result in
    let fft_freq :=
      Np.fftfreq (List.length samples) (1 / inject_Z SAMPLE_RATE)%Q in
    let positive_freq_indices := Np.where_ge0 fft_freq in
    Some {| xdata := Np.take 0%Q fft_freq positive_freq_indices;
            ydata := Np.take 0%R fft_magnitude positive_freq_indices |}
  else None.

(** [update_plot] on the queue [q] and the plot [p]: the queue it leaves
    and the plot after the call. *)
Definition update_plot (q : list Z) (p : Plot) : list Z * Plot :=
  let (new_data, q') := Queue.drain q in
  match new_data with
  | [] => (q', p)
  | _ :: _ =>
      let samples := all_samples p ++ new_data in
      let time :=
        {| xdata := Np.arange (List.length samples); ydata := samples |} in
      match spectral_frame samples with
      | Some frame =>
          (q', {| all_samples := samples;
                  line_time := time;
                  line_fft := frame;
                  ax_time_rescaled := S (ax_time_rescaled p);
                  ax_fft_rescaled := S (ax_fft_rescaled p) |})
      | None =>
          (q', {| all_samples := samples;
                  line_time := time;
                  line_fft := line_fft p;
                  ax_time_rescaled := S (ax_time_rescaled p);
                  ax_fft_rescaled := ax_fft_rescaled p |})
      end
  end.

(** A run of the animation: before each call of [update_plot] the worker
    has put [arrived] on the queue. *)
Fixpoint animate (arrivals : list (list Z)) (q : list Z) (p : Plot)
  : list Z * Plot :=
  match arrivals with
  | [] => (q, p)
  | arrived :: rest =>
      let (q', p') := update_plot (q ++ arrived) p in
      animate rest q' p'
  end.

(** ** Reading the two loops turn by turn *)

(** The [i]-th status line after [strip()]; [None] when the read raised. *)
Definition status_text (e : Env) (i : nat) : option string :=
  match status_line e i with
  | LineFault _ => None
  | Line s | Garbled s => Some (Text.strip s)
  end.

(** Turn [i] of the status loop goes round again: the stop flag was not
    seen, a line was read and it does not hold the marker. *)
Definition turns_again (e : Env) (i : nat) : bool :=
  negb (stop_seen e i)
  && match status_text e i with
     | Some line => negb (Text.contains START_MARKER line)
     | None => false
     end.

(** The lines the status loop prints in the [n] turns from turn [i]. *)
Fixpoint surfaced (e : Env) (i n : nat) : list string :=
  match n with
  | O => []
  | S n' =>
      match status_text e i with
      | Some line => if Text.truthy line then [line] else []
      | None => []
      end ++ surfaced e (S i) n'
  end.

Definition prints (ls : list string) (w : World) : World :=
  fold_left (fun w l => print l w) ls w.

(** The value of the [j]-th frame; [None] when the read was short or
    raised. *)
Definition frame_value (e : Env) (j : nat) : option Z :=
  match data_read e j with
  | Got raw_bytes => Wire.decode raw_bytes
  | ReadFault _ => None
  end.

(** The streaming loop, [k] polls and [j] frames in, takes one more
    frame. *)
Definition takes_frame (e : Env) (target : F64.float) (k j : nat) : bool :=
  negb (stop_seen e k)
  && F64.int_lt (Z.of_nat j) target
  && match frame_value e j with
     | Some _ => true
     | None => false
     end.

(** The values of the [n] frames from frame [j]. *)
Fixpoint frame_values (e : Env) (j n : nat) : list Z :=
  match n with
  | O => []
  | S n' =>
      match frame_value e j with
      | Some v => [v]
      | None => []
      end ++ frame_values e (S j) n'
  end.

Definition puts (vs : list Z) (w : World) : World :=
  fold_left (fun w v => put v w) vs w.

(** ** Scripted environments *)

(** A device that opens and accepts writes, answers the handshake with
    [ready], then sends the [status] lines and the [frames]; past the end
    of a script every read times out.  The stop flag is seen from poll
    [stop_from] on, or never. *)
Definition scripted (ready : line_in) (status : list string)
    (frames : list (list byte)) (stop_from : option nat) : Env :=
  {| port_fault := None;
     ready_line := ready;
     write_fault := None;
     status_line := fun i => Line (nth i status EmptyString);
     data_read := fun j => Got (nth j frames []);
     stop_seen := fun k =>
       match stop_from with
       | Some n => (n <=? k)%nat
       | None => false
       end |}.

(** [n] well-formed frames, sync bits set, counting up from zero. *)
Definition ramp (n : nat) : list (list byte) :=
  map (fun j => Wire.pack_H (0xF000 + Z.of_nat j mod 4096)) (seq 0 n).

(** The first read times out, the device stays silent, the window is
    closed after two polls. *)
Definition no_answer : Env := scripted (Line EmptyString) [] [] (Some 2%nat).

(** A device that answers and then sends frames for as long as asked. *)
Definition streaming (frames : nat) : Env :=
  scripted (Line "Pico ready") ["Pulse done"; "Starting data read"]%string
    (ramp frames) None.

(** A device that answers the handshake and then stays silent; nobody
    closes the window. *)
Definition silent : Env := scripted (Line "Pico ready") [] [] None.

(** No device on the port. *)
Definition dead_port : Env :=
  {| port_fault := Some "could not open port"%string;
     ready_line := Line EmptyString;
     write_fault := None;
     status_line := fun _ => Line EmptyString;
     data_read := fun _ => Got [];
     stop_seen := fun _ => false |}.

(** Line noise instead of a greeting. *)
Definition garbled_hello : Env :=
  {| port_fault := None;
     ready_line := Garbled "Pco rady";
     write_fault := None;
     status_line := fun _ => Line EmptyString;
     data_read := fun _ => Got [];
     stop_seen := fun _ => false |}.

(** The cable is pulled after three frames. *)
Definition unplugged : Env :=
  {| port_fault := None;
     ready_line := Line "Pico ready";
     write_fault := None;
     status_line := fun _ => Line "Starting data read";
     data_read := fun j =>
       if (j <? 3)%nat then Got [Wire.byte_of_Z (Z.of_nat j + 1); xaa]
       else ReadFault "device disconnected";
     stop_seen := fun _ => false |}.

(** ** Notions used by the further properties *)

(** A float that no count can lie below: not a number, a zero, or
    carrying the minus sign. *)
Definition not_positive (f : F64.float) : bool :=
  match f with
  | S754_nan => true
  | S754_zero _ => true
  | S754_infinity s => s
  | S754_finite s _ _ => s
  end.



(** One sample on the first tick, two more on the second. *)
Definition two_batches : list (list Z) := [[419]; [7; 8]].

(** The time line shows the whole accumulator against [0 .. N-1]. *)
Definition time_line_current (p : Plot) : Prop :=
  line_time p
  = {| xdata := Np.arange (List.length (all_samples p));
       ydata := all_samples p |}.

(** The frequency line is the frame of the accumulator, or empty while
    the accumulator is too short for one. *)
Definition fft_line_current (p : Plot) : Prop :=
  match spectral_frame (all_samples p) with
  | Some frame => line_fft p = frame
  | None => line_fft p = {| xdata := []; ydata := [] |}
  end.

(** The number of calls of [update_plot] that found something queued,
    when the queue starts empty. *)
Definition busy_ticks (arrivals : list (list Z)) : nat :=
  List.length (filter (fun batch => negb (Queue.empty batch)) arrivals).


(** * Properties *)

(** ** Wire frames *)

Lemma to_N_lt_256 (b : byte) : (Byte.to_N b < 256)%N.
Proof. destruct b; vm_compute; reflexivity. Qed.

Lemma to_N_byte_of_Z (z : Z) :
  Z.of_N (Byte.to_N (Wire.byte_of_Z z)) = z mod 256.
Proof.
  unfold Wire.byte_of_Z.
  assert (Hr : 0 <= z mod 256 < 256) by (apply Z.mod_pos_bound; lia).
  destruct (Byte.of_N (Z.to_N (z mod 256))) as [b|] eqn:E.
  - apply Byte.to_of_N in E. rewrite E. lia.
  - apply Byte.of_N_None_iff in E. lia.
Qed.

Lemma unpack_H_range (b0 b1 : byte) : 0 <= Wire.unpack_H b0 b1 < 65536.
Proof.
  unfold Wire.unpack_H.
  pose proof (to_N_lt_256 b0). pose proof (to_N_lt_256 b1). lia.
Qed.

(** Every 16-bit value travels as the two bytes [pack_H] makes of it. *)
Lemma unpack_pack (raw : Z) :
  0 <= raw < 65536 ->
  Wire.unpack_H (Wire.byte_of_Z raw) (Wire.byte_of_Z (raw / 256)) = raw.
Proof.
  intros H. unfold Wire.unpack_H.
  rewrite !to_N_byte_of_Z.
  rewrite (Z.mod_small (raw / 256)).
  - pose proof (Z.div_mod raw 256). lia.
  - split; [apply Z.div_pos; lia | apply Z.div_lt_upper_bound; lia].
Qed.

Lemma mask_sync_mod (sample : Z) : Wire.mask_sync sample = sample mod 4096.
Proof.
  unfold Wire.mask_sync.
  change 0x0FFF with (Z.ones 12). rewrite Z.land_ones by lia.
  reflexivity.
Qed.

Lemma mask_sync_range (sample : Z) : 0 <= Wire.mask_sync sample <= 4095.
Proof.
  rewrite mask_sync_mod.
  pose proof (Z.mod_pos_bound sample 4096). lia.
Qed.

(** Whatever two bytes arrive, the value decoded is a 12-bit sample. *)
Lemma decode_range (raw_bytes : list byte) (value : Z) :
  Wire.decode raw_bytes = Some value -> 0 <= value <= 4095.
Proof.
  destruct raw_bytes as [|b0 [|b1 [|? ?]]]; simpl; try discriminate.
  intros [= <-]. apply mask_sync_range.
Qed.

(** A frame is decoded exactly when two bytes were read. *)
Lemma decode_full_frame (raw_bytes : list byte) :
  (exists value, Wire.decode raw_bytes = Some value)
  <-> List.length raw_bytes = 2%nat.
Proof.
  destruct raw_bytes as [|b0 [|b1 [|? ?]]]; simpl; split;
    try (intros [? ?]; discriminate); try discriminate; try reflexivity.
  intros _. eexists. reflexivity.
Qed.

(** C1. For every 16-bit unsigned wire value [raw], sent as a two-byte
    little-endian frame, the streaming phase decodes [raw & 0x0FFF]; the
    decoded value lies in [0, 4095]; and the frame 0xF1A3 decodes to
    0x01A3, which is 419. *)
Theorem decode_masks_high_bits (raw : Z) (Hraw : 0 <= raw < 65536) :
  Wire.decode (Wire.pack_H raw) = Some (Z.land raw 0x0FFF)
  /\ (forall b0 b1,
        Wire.unpack_H b0 b1 = raw ->
        Wire.decode [b0; b1] = Some (Z.land raw 0x0FFF))
  /\ 0 <= Z.land raw 0x0FFF <= 4095
  /\ Wire.decode (Wire.pack_H 0xF1A3) = Some 0x01A3
  /\ 0x01A3 = 419.
Proof.
  split; [|split; [|split; [|split]]].
  - unfold Wire.pack_H, Wire.decode.
    rewrite unpack_pack by exact Hraw. reflexivity.
  - intros b0 b1 <-. reflexivity.
  - apply (mask_sync_range raw).
  - reflexivity.
  - reflexivity.
Qed.

Lemma decode_masks_high_bits_witness :
  0 <= 0xF1A3 < 65536
  /\ Wire.decode (Wire.pack_H 0xF1A3) = Some (Z.land 0xF1A3 0x0FFF)
  /\ 0 <= Z.land 0xF1A3 0x0FFF <= 4095.
Proof.
  split; [lia|].
  pose proof (decode_masks_high_bits 0xF1A3 ltac:(lia)) as [H1 [_ [H2 _]]].
  split; [exact H1 | exact H2].
Defined.

(** ** Text *)

Lemma contains_empty (s : string) : Text.contains EmptyString s = true.
Proof. destruct s; reflexivity. Qed.

Lemma marker_line_not_blank (line : string) :
  Text.contains START_MARKER line = true -> Text.truthy line = true.
Proof. destruct line; [discriminate | reflexivity]. Qed.

Lemma strip_empty : Text.strip EmptyString = EmptyString.
Proof. reflexivity. Qed.

(** ** The handshake *)

(** With a token that the first line lacks, the worker returns at once:
    nothing is written, nothing is queued, the flag is set. *)
Lemma handshake_guard (token : string) (fuel : nat) (e : Env)
    (pulse_ms read_ms : Z) (s : string) :
  port_fault e = None ->
  ready_line e = Line s ->
  Text.contains token (Text.strip s) = false ->
  exists w,
    serial_worker_with token fuel e pulse_ms read_ms = Some (NoReady, w)
    /\ port_out w = [] /\ data_queue w = [] /\ stop_event w = true.
Proof.
  intros Hp Hr Hc.
  unfold serial_worker_with, worker_body.
  rewrite Hp, Hr, Hc. simpl.
  eexists. split; [reflexivity|]. repeat split.
Qed.

(** Neither loop writes to the port. *)
Lemma status_loop_port (fuel : nat) (e : Env) :
  forall i w x k w',
    status_loop fuel e i w = Some (x, k, w') ->
    port_out w' = port_out w /\ port_opened w' = port_opened w
    /\ data_queue w' = data_queue w /\ stop_event w' = stop_event w.
Proof.
  induction fuel as [|fuel IH]; intros i w x k w'; simpl; [discriminate|].
  destruct (stop_seen e i).
  { intros [= <- <- <-]. repeat split. }
  destruct (status_line e i) as [s|s|msg].
  3: { intros [= <- <- <-]. repeat split. }
  all: destruct (Text.truthy (Text.strip s)).
  all: try destruct (Text.contains START_MARKER (Text.strip s)).
  all: try (intros [= <- <- <-]; repeat split).
  all: intros H; apply IH in H; exact H.
Qed.

Lemma stream_loop_port (fuel : nat) (e : Env) (target : F64.float) :
  forall k j w x w',
    stream_loop fuel e target k j w = Some (x, w') ->
    port_out w' = port_out w /\ port_opened w' = port_opened w
    /\ stop_event w' = stop_event w.
Proof.
  induction fuel as [|fuel IH]; intros k j w x w'; simpl; [discriminate|].
  destruct (negb (stop_seen e k) && F64.int_lt (Z.of_nat j) target).
  2: { intros [= <- <-]. repeat split. }
  destruct (data_read e j) as [raw_bytes|msg].
  2: { intros [= <- <-]. repeat split. }
  destruct (Wire.decode raw_bytes) as [value|].
  2: { intros [= <- <-]. repeat split. }
  intros H. apply IH in H. exact H.
Qed.

(** With the token of the source the test passes on every first line, so
    the worker always goes on to send the command. *)
Lemma handshake_always_passes (fuel : nat) (e : Env) (pulse_ms read_ms : Z)
    (s : string) (r : flow * World) :
  port_fault e = None ->
  ready_line e = Line s ->
  write_fault e = None ->
  serial_worker fuel e pulse_ms read_ms = Some r ->
  (fst r = Completed \/ exists ex, fst r = Raise ex)
  /\ port_out (snd r) = [command pulse_ms read_ms].
Proof.
  intros Hp Hr Hw.
  unfold serial_worker, serial_worker_with, worker_body.
  rewrite Hp, Hr, Hw. unfold READY_TOKEN. rewrite contains_empty. simpl.
  destruct (status_loop fuel e 0 _) as [[[x k] w]|] eqn:Es;
    [|discriminate].
  apply status_loop_port in Es. destruct Es as [Eo _]. simpl in Eo.
  destruct x as [ex|].
  { simpl. intros [= <-]. split; [right; eexists; reflexivity|].
    destruct ex; simpl; exact Eo. }
  destruct (samples_to_read read_ms) as [target|].
  2: { simpl. intros [= <-]. split; [right; eexists; reflexivity|].
       simpl; exact Eo. }
  destruct (stream_loop fuel e target k 0 w) as [[x w']|] eqn:Et;
    [|discriminate].
  apply stream_loop_port in Et. destruct Et as [Eo' _].
  destruct x as [ex|]; simpl; intros [= <-].
  - split; [right; eexists; reflexivity|].
    destruct ex; simpl; congruence.
  - split; [left; reflexivity|]. simpl. congruence.
Qed.

(** C3. On a first line that holds no ready message the worker is to
    stop before any command is sent.  The source tests the line against
    the empty string, which every line holds: when the handshake read
    times out and returns nothing, the test passes all the same, the
    command goes out on the port, and the run ends as completed. *)
Theorem handshake_timeout_sends_command :
  (forall line, Text.contains READY_TOKEN line = true)
  /\ ready_line no_answer = Line EmptyString
  /\ exists w,
       serial_worker 3 no_answer 5 100 = Some (Completed, w)
       /\ port_out w = [command 5 100]
       /\ In "Pico says: ''"%string (console w)
       /\ data_queue w = [] /\ stop_event w = true.
Proof.
  split; [exact contains_empty|]. split; [reflexivity|].
  eexists. split; [vm_compute; reflexivity|].
  repeat split. vm_compute. tauto.
Qed.

(** ** The status loop *)

Lemma turns_again_inv (e : Env) (i : nat) :
  turns_again e i = true ->
  stop_seen e i = false
  /\ exists line, status_text e i = Some line
                  /\ Text.contains START_MARKER line = false.
Proof.
  unfold turns_again. intros H.
  apply andb_true_iff in H. destruct H as [Hs Hl].
  apply negb_true_iff in Hs. split; [exact Hs|].
  destruct (status_text e i) as [line|]; [|discriminate].
  exists line. split; [reflexivity|]. apply negb_true_iff. exact Hl.
Qed.

(** One turn that goes round again: the line is printed unless blank. *)
Lemma status_loop_turn (fuel : nat) (e : Env) (i : nat) (w : World) :
  turns_again e i = true ->
  status_loop (S fuel) e i w
  = status_loop fuel e (S i) (prints (surfaced e i 1) w).
Proof.
  intros H. apply turns_again_inv in H.
  destruct H as [Hs [line [Hl Hc]]].
  simpl. rewrite Hs, Hl. unfold status_text in Hl.
  destruct (status_line e i) as [s|s|msg]; [| |discriminate].
  all: injection Hl as Hl; rewrite Hl, Hc.
  all: destruct (Text.truthy line); reflexivity.
Qed.

Lemma prints_app (l1 l2 : list string) (w : World) :
  prints (l1 ++ l2) w = prints l2 (prints l1 w).
Proof. unfold prints. apply fold_left_app. Qed.

Lemma surfaced_S (e : Env) (i n : nat) :
  surfaced e i (S n) = surfaced e i 1 ++ surfaced e (S i) n.
Proof. simpl. rewrite app_nil_r. reflexivity. Qed.

(** [n] such turns in a row. *)
Lemma status_loop_run (e : Env) (n : nat) :
  forall i w fuel,
    (forall j, (j < n)%nat -> turns_again e (i + j) = true) ->
    status_loop (n + fuel) e i w
    = status_loop fuel e (i + n) (prints (surfaced e i n) w).
Proof.
  induction n as [|n IH]; intros i w fuel H.
  - rewrite Nat.add_0_r. reflexivity.
  - change (S n + fuel)%nat with (S (n + fuel)).
    rewrite status_loop_turn
      by (rewrite <- (Nat.add_0_r i); apply H; lia).
    rewrite IH.
    + rewrite (surfaced_S e i n), prints_app.
      replace (i + S n)%nat with (S i + n)%nat by lia. reflexivity.
    + intros j Hj. replace (S i + j)%nat with (i + S j)%nat by lia.
      apply H. lia.
Qed.

(** The three ways out of a turn. *)
Lemma status_loop_stop (fuel : nat) (e : Env) (i : nat) (w : World) :
  stop_seen e i = true ->
  status_loop (S fuel) e i w = Some (None, S i, w).
Proof. intros H. simpl. rewrite H. reflexivity. Qed.

Lemma status_loop_marker (fuel : nat) (e : Env) (i : nat) (w : World)
    (line : string) :
  stop_seen e i = false ->
  status_text e i = Some line ->
  Text.contains START_MARKER line = true ->
  status_loop (S fuel) e i w = Some (None, S i, print line w).
Proof.
  intros Hs Hl Hc. simpl. rewrite Hs. unfold status_text in Hl.
  destruct (status_line e i) as [s|s|msg]; [| |discriminate].
  all: injection Hl as Hl; rewrite Hl, Hc.
  all: rewrite (marker_line_not_blank line Hc); reflexivity.
Qed.

Lemma status_loop_fault (fuel : nat) (e : Env) (i : nat) (w : World)
    (msg : string) :
  stop_seen e i = false ->
  status_line e i = LineFault msg ->
  status_loop (S fuel) e i w = Some (Some (SerialException msg), S i, w).
Proof. intros Hs Hl. simpl. rewrite Hs, Hl. reflexivity. Qed.

(** While every turn goes round again the loop is never left. *)
Lemma status_loop_spins (e : Env) (fuel : nat) :
  forall i w,
    (forall j, turns_again e j = true) ->
    status_loop fuel e i w = None.
Proof.
  induction fuel as [|fuel IH]; intros i w H; [reflexivity|].
  rewrite status_loop_turn by apply H. apply IH. exact H.
Qed.

(** The loop is left only on a turn that does not go round again. *)
Lemma status_loop_left (e : Env) (fuel : nat) :
  forall i w x k w',
    status_loop fuel e i w = Some (x, k, w') ->
    exists n,
      k = S (i + n)
      /\ (forall j, (j < n)%nat -> turns_again e (i + j) = true)
      /\ turns_again e (i + n) = false.
Proof.
  induction fuel as [|fuel IH]; intros i w x k w' H; [discriminate|].
  destruct (turns_again e i) eqn:Et.
  - rewrite status_loop_turn in H by exact Et.
    apply IH in H. destruct H as [n [Hk [Hb Hn]]].
    exists (S n). split; [lia|]. split.
    + intros [|j] Hj; [rewrite Nat.add_0_r; exact Et|].
      replace (i + S j)%nat with (S i + j)%nat by lia. apply Hb. lia.
    + replace (i + S n)%nat with (S i + n)%nat by lia. exact Hn.
  - exists 0%nat. rewrite Nat.add_0_r. split; [|split].
    + revert H. simpl.
      destruct (stop_seen e i) eqn:Es; [intros [= _ <- _]; reflexivity|].
      unfold turns_again, status_text in Et. rewrite Es in Et. simpl in Et.
      destruct (status_line e i) as [s|s|msg];
        try (intros [= _ <- _]; reflexivity).
      all: apply negb_false_iff in Et; rewrite Et.
      all: rewrite (marker_line_not_blank _ Et).
      all: intros [= _ <- _]; reflexivity.
    + intros j Hj. lia.
    + exact Et.
Qed.

(** A read that times out hands back no bytes: the line is blank, it is
    not printed and the loop goes round again. *)
Lemma timeout_turns_again (e : Env) (i : nat) :
  stop_seen e i = false ->
  status_line e i = Line EmptyString ->
  turns_again e i = true /\ surfaced e i 1 = [].
Proof.
  intros Hs Hl. unfold turns_again, surfaced, status_text.
  rewrite Hs, Hl. split; reflexivity.
Qed.

Lemma silent_times_out (i : nat) : status_line silent i = Line EmptyString.
Proof. destruct i; reflexivity. Qed.

(** C5, as stated, fails: after the handshake the device of [silent]
    sends nothing, so every read of the status phase times out; the worker
    raises no error and never leaves the phase. *)
Lemma status_phase_spins_on_timeouts :
  (forall i, status_line silent i = Line EmptyString)
  /\ (forall i, stop_seen silent i = false)
  /\ (forall fuel, serial_worker fuel silent 5 100 = None).
Proof.
  split; [exact silent_times_out|]. split; [reflexivity|].
  intros fuel.
  unfold serial_worker, serial_worker_with, worker_body. simpl.
  rewrite status_loop_spins; [reflexivity|].
  intros j. apply timeout_turns_again; [reflexivity|apply silent_times_out].
Qed.

(** C5, amended.  The status phase reads line after line and prints each
    line that is not blank.  It is left on the first turn where the stop
    flag is seen, where the line holds the start marker (that line is
    printed too), or where the read raises; it is left on no other turn.
    A read that times out gives a blank line: nothing is printed, no
    error is raised and the loop polls again, so that with nothing but
    timeouts and no cancellation the phase does not end. *)
Theorem status_phase_exits (e : Env) (w : World) :
  (forall n fuel,
     (forall j, (j < n)%nat -> turns_again e j = true) ->
     (n < fuel)%nat ->
     (stop_seen e n = true ->
      status_loop fuel e 0 w = Some (None, S n, prints (surfaced e 0 n) w))
     /\ (forall line,
           stop_seen e n = false ->
           status_text e n = Some line ->
           Text.contains START_MARKER line = true ->
           status_loop fuel e 0 w
           = Some (None, S n, prints (surfaced e 0 n ++ [line]) w))
     /\ (forall msg,
           stop_seen e n = false ->
           status_line e n = LineFault msg ->
           status_loop fuel e 0 w
           = Some (Some (SerialException msg), S n,
                   prints (surfaced e 0 n) w)))
  /\ (forall fuel x k w',
        status_loop fuel e 0 w = Some (x, k, w') ->
        exists n,
          k = S n
          /\ (forall j, (j < n)%nat -> turns_again e j = true)
          /\ turns_again e n = false)
  /\ (forall i,
        stop_seen e i = false ->
        status_line e i = Line EmptyString ->
        turns_again e i = true /\ surfaced e i 1 = [])
  /\ ((forall j, turns_again e j = true) ->
      forall fuel, status_loop fuel e 0 w = None).
Proof.
  split; [|split; [|split]].
  - intros n fuel Hb Hf.
    destruct fuel as [|fuel]; [lia|].
    replace (S fuel) with (n + S (fuel - n))%nat by lia.
    rewrite status_loop_run by exact Hb. simpl (0 + n)%nat.
    split; [|split].
    + intros Hs. apply status_loop_stop. exact Hs.
    + intros line Hs Hl Hc. rewrite prints_app.
      apply status_loop_marker; assumption.
    + intros msg Hs Hl. apply status_loop_fault; assumption.
  - intros fuel x k w' H.
    apply status_loop_left in H. exact H.
  - apply timeout_turns_again.
  - intros H fuel. apply status_loop_spins. exact H.
Qed.

Lemma status_phase_exits_witness :
  (forall j, (j < 1)%nat -> turns_again (streaming 0) j = true)
  /\ (1 < 4)%nat
  /\ stop_seen (streaming 0) 1 = false
  /\ status_text (streaming 0) 1 = Some "Starting data read"%string
  /\ Text.contains START_MARKER "Starting data read" = true
  /\ status_loop 4 (streaming 0) 0 fresh
     = Some (None, 2%nat,
             prints (surfaced (streaming 0) 0 1 ++ ["Starting data read"%string])
                    fresh).
Proof.
  assert (Hb : forall j, (j < 1)%nat -> turns_again (streaming 0) j = true).
  { intros j Hj. destruct j; [reflexivity|lia]. }
  split; [exact Hb|]. split; [lia|].
  split; [reflexivity|]. split; [reflexivity|]. split; [reflexivity|].
  exact (proj1 (proj2 (proj1 (status_phase_exits (streaming 0) fresh)
                         1%nat 4%nat Hb ltac:(lia)))
           "Starting data read"%string eq_refl eq_refl eq_refl).
Defined.

(** ** The streaming loop *)

Lemma takes_frame_inv (e : Env) (target : F64.float) (k j : nat) :
  takes_frame e target k j = true ->
  stop_seen e k = false
  /\ F64.int_lt (Z.of_nat j) target = true
  /\ exists v, frame_value e j = Some v.
Proof.
  unfold takes_frame. intros H.
  apply andb_true_iff in H. destruct H as [H Hv].
  apply andb_true_iff in H. destruct H as [Hs Hl].
  apply negb_true_iff in Hs. repeat split; try assumption.
  destruct (frame_value e j) as [v|]; [exists v; reflexivity|discriminate].
Qed.

Lemma puts_app (l1 l2 : list Z) (w : World) :
  puts (l1 ++ l2) w = puts l2 (puts l1 w).
Proof. unfold puts. apply fold_left_app. Qed.

Lemma frame_values_S (e : Env) (j n : nat) :
  frame_values e j (S n) = frame_values e j 1 ++ frame_values e (S j) n.
Proof. simpl. rewrite app_nil_r. reflexivity. Qed.

(** One turn that takes a frame puts its value on the queue. *)
Lemma stream_loop_turn (fuel : nat) (e : Env) (target : F64.float)
    (k j : nat) (w : World) :
  takes_frame e target k j = true ->
  stream_loop (S fuel) e target k j w
  = stream_loop fuel e target (S k) (S j) (puts (frame_values e j 1) w).
Proof.
  intros H. apply takes_frame_inv in H. destruct H as [Hs [Hl [v Hv]]].
  simpl. rewrite Hs, Hl, Hv. simpl. unfold frame_value in Hv.
  destruct (data_read e j) as [raw_bytes|msg]; [|discriminate].
  rewrite Hv. reflexivity.
Qed.

Lemma stream_loop_run (e : Env) (target : F64.float) (n : nat) :
  forall k j w fuel,
    (forall i, (i < n)%nat -> takes_frame e target (k + i) (j + i) = true) ->
    stream_loop (n + fuel) e target k j w
    = stream_loop fuel e target (k + n) (j + n)
        (puts (frame_values e j n) w).
Proof.
  induction n as [|n IH]; intros k j w fuel H.
  - rewrite !Nat.add_0_r. reflexivity.
  - change (S n + fuel)%nat with (S (n + fuel)).
    rewrite stream_loop_turn
      by (rewrite <- (Nat.add_0_r k), <- (Nat.add_0_r j); apply H; lia).
    rewrite IH.
    + rewrite (frame_values_S e j n), puts_app.
      replace (k + S n)%nat with (S k + n)%nat by lia.
      replace (j + S n)%nat with (S j + n)%nat by lia. reflexivity.
    + intros i Hi.
      replace (S k + i)%nat with (k + S i)%nat by lia.
      replace (S j + i)%nat with (j + S i)%nat by lia.
      apply H. lia.
Qed.

(** A turn that takes no frame ends the loop and leaves the queue as it
    is; only a read that raised ends it with an error. *)
Lemma stream_loop_last (fuel : nat) (e : Env) (target : F64.float)
    (k j : nat) (w : World) :
  takes_frame e target k j = false ->
  exists x,
    stream_loop (S fuel) e target k j w = Some (x, w)
    /\ (x = None
        \/ exists msg,
             stop_seen e k = false
             /\ F64.int_lt (Z.of_nat j) target = true
             /\ data_read e j = ReadFault msg
             /\ x = Some (SerialException msg)).
Proof.
  unfold takes_frame, frame_value. simpl. intros H.
  destruct (stop_seen e k); simpl in *.
  { exists None. split; [reflexivity|left; reflexivity]. }
  destruct (F64.int_lt (Z.of_nat j) target); simpl in *.
  2: { exists None. split; [reflexivity|left; reflexivity]. }
  destruct (data_read e j) as [raw_bytes|msg].
  - destruct (Wire.decode raw_bytes); [discriminate|].
    exists None. split; [reflexivity|left; reflexivity].
  - exists (Some (SerialException msg)). split; [reflexivity|].
    right. exists msg. repeat split.
Qed.

Lemma frame_values_length (e : Env) (target : F64.float) (n : nat) :
  forall k j,
    (forall i, (i < n)%nat -> takes_frame e target (k + i) (j + i) = true) ->
    List.length (frame_values e j n) = n.
Proof.
  induction n as [|n IH]; intros k j H; [reflexivity|].
  rewrite frame_values_S, length_app, (IH (S k) (S j)).
  - specialize (H 0%nat ltac:(lia)). rewrite !Nat.add_0_r in H.
    apply takes_frame_inv in H. destruct H as [_ [_ [v Hv]]].
    simpl. rewrite Hv. reflexivity.
  - intros i Hi.
    replace (S k + i)%nat with (k + S i)%nat by lia.
    replace (S j + i)%nat with (j + S i)%nat by lia.
    apply H. lia.
Qed.

(** The streaming loop takes frames up to the first turn on which the
    stop flag is seen, the count is no longer below the target, or the
    read is short: it puts exactly the frames before that turn on the
    queue, in order, and a short read is no error. *)
Lemma stream_loop_stops_exactly (e : Env) (target : F64.float)
    (k n fuel : nat) (w : World) :
  (forall i, (i < n)%nat -> takes_frame e target (k + i) i = true) ->
  takes_frame e target (k + n) n = false ->
  (n < fuel)%nat ->
  exists x,
    stream_loop fuel e target k 0 w = Some (x, puts (frame_values e 0 n) w)
    /\ List.length (frame_values e 0 n) = n
    /\ (x = None
        \/ exists msg, data_read e n = ReadFault msg
                       /\ x = Some (SerialException msg)).
Proof.
  intros Hb Hn Hf.
  replace fuel with (n + S (fuel - S n))%nat by lia.
  rewrite (stream_loop_run e target n k 0%nat) by exact Hb.
  destruct (stream_loop_last (fuel - S n) e target (k + n) (0 + n)
              (puts (frame_values e 0 n) w) Hn) as [x [Hx Hk]].
  exists x. split; [exact Hx|]. split.
  - apply (frame_values_length e target n k 0%nat). exact Hb.
  - destruct Hk as [Hk|[msg [_ [_ [Hd Hk]]]]]; [left; exact Hk|].
    right. exists msg. split; assumption.
Qed.

(** Every value the streaming loop queues is a 12-bit sample. *)
Lemma stream_loop_samples (fuel : nat) (e : Env) (target : F64.float) :
  forall k j w x w',
    stream_loop fuel e target k j w = Some (x, w') ->
    Forall (fun v => 0 <= v <= 4095) (data_queue w) ->
    Forall (fun v => 0 <= v <= 4095) (data_queue w').
Proof.
  induction fuel as [|fuel IH]; intros k j w x w'; simpl; [discriminate|].
  destruct (negb (stop_seen e k) && F64.int_lt (Z.of_nat j) target).
  2: { intros [= _ <-] H. exact H. }
  destruct (data_read e j) as [raw_bytes|msg].
  2: { intros [= _ <-] H. exact H. }
  destruct (Wire.decode raw_bytes) as [value|] eqn:Ed.
  2: { intros [= _ <-] H. exact H. }
  intros H Hq. apply IH in H; [exact H|].
  simpl. apply Forall_app. split; [exact Hq|].
  constructor; [|constructor]. apply (decode_range raw_bytes). exact Ed.
Qed.

(** Every value the worker leaves on the queue is a 12-bit sample. *)
Lemma worker_queues_samples (fuel : nat) (e : Env) (pulse_ms read_ms : Z)
    (r : flow * World) :
  serial_worker fuel e pulse_ms read_ms = Some r ->
  Forall (fun v => 0 <= v <= 4095) (data_queue (snd r)).
Proof.
  unfold serial_worker, serial_worker_with.
  destruct (worker_body _ _ _ _ _ _) as [[f w]|] eqn:Eb; simpl;
    [|discriminate].
  intros [= <-].
  assert (Hw : Forall (fun v => 0 <= v <= 4095) (data_queue w)).
  { revert Eb. unfold worker_body.
    destruct (port_fault e); [intros [= _ <-]; constructor|].
    destruct (ready_line e) as [s|s|msg];
      try (intros [= _ <-]; constructor).
    destruct (negb _); [intros [= _ <-]; constructor|].
    destruct (write_fault e); [intros [= _ <-]; constructor|].
    destruct (status_loop _ _ _ _) as [[[x k] w1]|] eqn:Es; [|discriminate].
    apply status_loop_port in Es. destruct Es as [_ [_ [Es _]]].
    simpl in Es.
    assert (H1 : Forall (fun v => 0 <= v <= 4095) (data_queue w1))
      by (rewrite Es; constructor).
    destruct x; [intros [= _ <-]; exact H1|].
    destruct (samples_to_read read_ms) as [target|];
      [|intros [= _ <-]; exact H1].
    destruct (stream_loop _ _ _ _ _ _) as [[x w2]|] eqn:Et; [|discriminate].
    apply stream_loop_samples in Et; [|exact H1].
    destruct x; intros [= _ <-]; simpl; exact Et. }
  destruct f as [| |[msg| |]]; simpl; exact Hw.
Qed.

(** Scenario 1 of the specification: with [read_ms = 100] the target is
    1000.0, and a device that sends 1000 frames and then falls silent
    leaves exactly 1000 samples on the queue. *)
Lemma thousand_frames_read :
  samples_to_read 100 = F64.of_int 1000
  /\ exists w,
       serial_worker 1002 (streaming 1000) 5 100 = Some (Completed, w)
       /\ List.length (data_queue w) = 1000%nat
       /\ stop_event w = true.
Proof.
  split; [vm_compute; reflexivity|].
  eexists. split; [vm_compute; reflexivity|].
  split; reflexivity.
Qed.

(** A short read ends the stream early, without an error. *)
Lemma short_read_ends_stream :
  exists w,
    serial_worker 1002 (streaming 7) 5 100 = Some (Completed, w)
    /\ List.length (data_queue w) = 7%nat.
Proof. eexists. split; [vm_compute; reflexivity|reflexivity]. Qed.

(** C4. The streaming loop is to end once
    [sample_rate * read_ms / 1000] samples were read.  The source holds
    the target as the float [SAMPLE_RATE * (read_ms / 1000.0)]: for
    [read_ms = 35] that float lies just above 350, so that with 350
    samples read the loop test still passes, and a device that goes on
    sending has 351 samples taken from it. *)
Theorem one_frame_too_many :
  SAMPLE_RATE * 35 / 1000 = 350
  /\ samples_to_read 35 = Some (S754_finite false 6157265115545601 (-44))
  /\ 350 * 2 ^ 44 < 6157265115545601
  /\ (exists target,
        samples_to_read 35 = Some target
        /\ F64.int_lt 350 target = true
        /\ F64.int_lt 351 target = false)
  /\ exists w,
       serial_worker 400 (streaming 400) 5 35 = Some (Completed, w)
       /\ List.length (data_queue w) = 351%nat.
Proof.
  split; [reflexivity|]. split; [vm_compute; reflexivity|].
  split; [lia|]. split.
  - eexists. split; [vm_compute; reflexivity|].
    split; vm_compute; reflexivity.
  - eexists. split; [vm_compute; reflexivity|reflexivity].
Qed.

(** ** Leaving the worker *)





Lemma handlers_keep_flow (r : flow * World) : fst (handlers r) = fst r.
Proof. destruct r as [f w]. reflexivity. Qed.




(** The flag on the other ways out: a port that does not open, a first
    line that is not UTF-8, a read that raises in mid-stream, a target
    too large for a float. *)
Lemma flag_on_each_exit :
  (exists w,
     serial_worker 0 dead_port 5 100
     = Some (Raise (SerialException "could not open port"), w)
     /\ stop_event w = true /\ port_out w = [])
  /\ (exists w,
        serial_worker 0 garbled_hello 5 100 = Some (Raise UnicodeDecodeError, w)
        /\ stop_event w = true /\ port_out w = [])
  /\ (exists w,
        serial_worker 9 unplugged 5 100
        = Some (Raise (SerialException "device disconnected"), w)
        /\ stop_event w = true /\ data_queue w = [2561; 2562; 2563])
  /\ (exists w,
        serial_worker 9 (streaming 0) 5 (10 ^ 400)
        = Some (Raise OverflowError, w)
        /\ stop_event w = true /\ data_queue w = []).
Proof.
  repeat split; eexists; (split; [vm_compute; reflexivity|]);
    split; reflexivity.
Qed.

(** ** The command line *)






(** ** The queue *)

Lemma drain_loop_all (q : list Z) :
  forall new_data fuel,
    (List.length q < fuel)%nat ->
    Queue.drain_loop fuel q new_data = (new_data ++ q, []).
Proof.
  induction q as [|v q IH]; intros new_data fuel Hf.
  - destruct fuel; [lia|]. simpl. rewrite app_nil_r. reflexivity.
  - destruct fuel; [simpl in Hf; lia|]. simpl.
    rewrite IH by (simpl in Hf; lia).
    rewrite <- app_assoc. reflexivity.
Qed.

(** A drain takes everything that is queued, in queue order. *)
Lemma drain_all (q : list Z) : Queue.drain q = (q, []).
Proof. unfold Queue.drain. apply drain_loop_all. lia. Qed.

Lemma run_conserves (ops : list Queue.op) :
  forall q,
    List.concat (fst (Queue.run ops q)) ++ snd (Queue.run ops q)
    = q ++ Queue.pushed ops.
Proof.
  induction ops as [|[v|] ops IH]; intros q; simpl.
  - rewrite app_nil_r. reflexivity.
  - rewrite IH. unfold Queue.put. rewrite <- app_assoc. reflexivity.
  - rewrite drain_all.
    specialize (IH []).
    destruct (Queue.run ops []) as [bs q'']. simpl in *.
    rewrite <- app_assoc, IH. reflexivity.
Qed.

Lemma run_app (a b : list Queue.op) :
  forall q,
    Queue.run (a ++ b) q
    = (fst (Queue.run a q) ++ fst (Queue.run b (snd (Queue.run a q))),
       snd (Queue.run b (snd (Queue.run a q)))).
Proof.
  induction a as [|[v|] a IH]; intros q; simpl.
  - destruct (Queue.run b q); reflexivity.
  - apply IH.
  - destruct (Queue.drain q) as [batch q'].
    rewrite IH.
    destruct (Queue.run a q') as [bs q'']. reflexivity.
Qed.

Lemma pushed_app (a b : list Queue.op) :
  Queue.pushed (a ++ b) = Queue.pushed a ++ Queue.pushed b.
Proof.
  induction a as [|[v|] a IH]; simpl; [reflexivity| |exact IH].
  rewrite IH. reflexivity.
Qed.

(** C8. For every sequence of pushes interleaved with drains on a queue
    that starts empty, the batches of the drains, put end to end and
    followed by what is still queued, are the pushed samples in push
    order; once a drain has followed the last push nothing is still
    queued and the batches alone are the pushed samples: nothing is
    lost, reordered or duplicated. *)
Theorem drains_give_back_pushes (ops : list Queue.op) :
  List.concat (fst (Queue.run ops [])) ++ snd (Queue.run ops [])
  = Queue.pushed ops
  /\ List.concat (fst (Queue.run (ops ++ [Queue.Drain]) [])) = Queue.pushed ops
  /\ snd (Queue.run (ops ++ [Queue.Drain]) []) = [].
Proof.
  split; [|split].
  - apply (run_conserves ops []).
  - rewrite run_app. simpl. rewrite drain_all. simpl.
    rewrite concat_app. simpl. rewrite app_nil_r.
    apply (run_conserves ops []).
  - rewrite run_app. simpl. rewrite drain_all. reflexivity.
Qed.

Ltac list_norm :=
  simpl; rewrite ?concat_app; simpl;
  repeat rewrite app_nil_r; repeat rewrite <- app_assoc; simpl;
  try reflexivity.

Lemma step_conserves (s : Queue.sys) (ev : Queue.event) :
  Queue.content (Queue.step s ev) = Queue.content s ++ Queue.sent [ev].
Proof.
  destruct s as [q c bs]. unfold Queue.content, Queue.put.
  destruct ev as [v| |]; simpl.
  - list_norm.
  - destruct c; list_norm.
  - destruct c as [|new_data|new_data]; [list_norm| |];
      destruct q as [|v q]; list_norm.
Qed.

Lemma sent_app (a b : list Queue.event) :
  Queue.sent (a ++ b) = Queue.sent a ++ Queue.sent b.
Proof.
  induction a as [|[v| |] a IH]; simpl; [reflexivity| |exact IH|exact IH].
  rewrite IH. reflexivity.
Qed.

(** The same with the producer running between any two queue calls of
    the drain loop: what was drained, what the consumer has in hand and
    what is queued are, in this order, the samples put so far. *)
Lemma interleaved_drains_conserve (evs : list Queue.event) :
  Queue.content (Queue.exec evs) = Queue.sent evs.
Proof.
  unfold Queue.exec.
  induction evs as [|ev evs IH] using rev_ind; [reflexivity|].
  rewrite fold_left_app. simpl.
  rewrite step_conserves, IH, sent_app. reflexivity.
Qed.

(** ** The refresh step *)

(** C6. Whatever the accumulator and the two lines hold, a call of
    [update_plot] that finds the queue empty changes nothing: the
    samples, both lines and both axes are as before. *)
Theorem empty_queue_refresh_is_noop (p : Plot) :
  update_plot [] p = ([], p)
  /\ all_samples (snd (update_plot [] p)) = all_samples p
  /\ line_time (snd (update_plot [] p)) = line_time p
  /\ line_fft (snd (update_plot [] p)) = line_fft p.
Proof. repeat split. Qed.

Lemma spectral_frame_short (samples : list Z) :
  (List.length samples <= 1)%nat -> spectral_frame samples = None.
Proof.
  intros H. unfold spectral_frame.
  destruct (Nat.ltb_spec 1 (List.length samples)); [lia|reflexivity].
Qed.

(** C10. A call of [update_plot] that drains something and leaves the
    accumulator with exactly one sample appends it and redraws the time
    line over it, rescaling the time axis; the frequency line keeps the
    data it had (it is not set to an empty frame) and the frequency axis
    is not rescaled. *)
Theorem single_sample_keeps_spectrum (q : list Z) (p : Plot)
    (Hq : q <> []) (Hlen : List.length (all_samples p ++ q) = 1%nat) :
  update_plot q p
  = ([], {| all_samples := all_samples p ++ q;
            line_time := {| xdata := [0]; ydata := all_samples p ++ q |};
            line_fft := line_fft p;
            ax_time_rescaled := S (ax_time_rescaled p);
            ax_fft_rescaled := ax_fft_rescaled p |}).
Proof.
  unfold update_plot. rewrite drain_all.
  destruct q as [|v q]; [contradiction|].
  rewrite spectral_frame_short by lia.
  rewrite Hlen. reflexivity.
Qed.

Lemma single_sample_keeps_spectrum_witness :
  [419] <> []
  /\ List.length (all_samples blank ++ [419]) = 1%nat
  /\ update_plot [419] blank
     = ([], {| all_samples := all_samples blank ++ [419];
               line_time :=
                 {| xdata := [0]; ydata := all_samples blank ++ [419] |};
               line_fft := line_fft blank;
               ax_time_rescaled := S (ax_time_rescaled blank);
               ax_fft_rescaled := ax_fft_rescaled blank |}).
Proof.
  assert (Hq : [419] <> []) by discriminate.
  split; [exact Hq|]. split; [reflexivity|].
  exact (single_sample_keeps_spectrum [419] blank Hq eq_refl).
Defined.



(** ** The frequency axis *)

Lemma nth_map_seq {A : Type} (g : nat -> A) (d : A) (len j : nat) :
  (j < len)%nat -> nth j (map g (seq 0 len)) d = g j.
Proof.
  intros H.
  rewrite (nth_indep _ d (g 0%nat)) by (rewrite length_map, length_seq; lia).
  rewrite map_nth, seq_nth by lia. reflexivity.
Qed.

Lemma filter_all {A : Type} (f : A -> bool) (l : list A) :
  (forall x, In x l -> f x = true) -> filter f l = l.
Proof.
  induction l as [|a l IH]; intros H; simpl; [reflexivity|].
  rewrite (H a) by (left; reflexivity).
  rewrite IH; [reflexivity|]. intros x Hx. apply H. right. exact Hx.
Qed.

Lemma filter_none {A : Type} (f : A -> bool) (l : list A) :
  (forall x, In x l -> f x = false) -> filter f l = [].
Proof.
  induction l as [|a l IH]; intros H; simpl; [reflexivity|].
  rewrite (H a) by (left; reflexivity).
  apply IH. intros x Hx. apply H. right. exact Hx.
Qed.

(** Linear arithmetic with division by a numeral. *)
Ltac div_lia := zify; Z.to_euclidean_division_equations; lia.

(** The number of entries [fftfreq] puts before the negative ones. *)
Lemma front_bins (n : nat) :
  (1 <= n)%nat ->
  Z.to_nat ((Z.of_nat n - 1) / 2 + 1) = ((n + 1) / 2)%nat.
Proof.
  intros H. div_lia.
Qed.

Lemma fftfreq_bins_length (n : nat) :
  (1 <= n)%nat -> List.length (Np.fftfreq_bins n) = n.
Proof.
  intros H. unfold Np.fftfreq_bins, Np.arange.
  rewrite length_app, !length_map, !length_seq, front_bins by exact H.
  div_lia.
Qed.

Lemma fftfreq_bins_front (n i : nat) :
  (1 <= n)%nat -> (i < (n + 1) / 2)%nat ->
  nth i (Np.fftfreq_bins n) 0 = Z.of_nat i.
Proof.
  intros Hn Hi. unfold Np.fftfreq_bins, Np.arange.
  rewrite front_bins by exact Hn.
  rewrite app_nth1 by (rewrite length_map, length_seq; exact Hi).
  apply nth_map_seq. exact Hi.
Qed.

Lemma fftfreq_bins_back (n i : nat) :
  (1 <= n)%nat -> ((n + 1) / 2 <= i < n)%nat ->
  nth i (Np.fftfreq_bins n) 0 < 0.
Proof.
  intros Hn Hi.
  pose proof (fftfreq_bins_length n Hn) as Hlen.
  revert Hlen. unfold Np.fftfreq_bins, Np.arange.
  rewrite front_bins by exact Hn.
  rewrite length_app, !length_map, !length_seq. intros Hlen.
  rewrite app_nth2 by (rewrite length_map, length_seq; lia).
  rewrite length_map, length_seq.
  rewrite nth_map_seq by lia.
  div_lia.
Qed.

(** The spacing of the frequency axis over [n] samples. *)
Lemma bin_width (n : nat) :
  (1 <= n)%nat ->
  (1 / (inject_Z (Z.of_nat n) * (1 / inject_Z SAMPLE_RATE))
   == inject_Z SAMPLE_RATE / inject_Z (Z.of_nat n))%Q.
Proof.
  intros H.
  assert (Hn : ~ (inject_Z (Z.of_nat n) == 0)%Q).
  { intros E. unfold Qeq in E. simpl in E. lia. }
  assert (Hr : ~ (inject_Z SAMPLE_RATE == 0)%Q).
  { intros E. unfold Qeq in E. simpl in E. discriminate. }
  field. split; assumption.
Qed.

Lemma bin_width_pos (n : nat) :
  (1 <= n)%nat ->
  (0 < 1 / (inject_Z (Z.of_nat n) * (1 / inject_Z SAMPLE_RATE)))%Q.
Proof.
  intros H. rewrite bin_width by exact H.
  apply Qlt_shift_div_l.
  - unfold Qlt. simpl. lia.
  - unfold Qlt. simpl. reflexivity.
Qed.

Lemma nth_map_in {A B : Type} (f : A -> B) (l : list A) (dA : A) (dB : B)
    (i : nat) :
  (i < List.length l)%nat -> nth i (map f l) dB = f (nth i l dA).
Proof.
  intros H.
  rewrite (nth_indep _ dB (f dA)) by (rewrite length_map; exact H).
  apply map_nth.
Qed.

(** [np.where(fft_freq >= 0)] keeps the front of the axis: the positions
    [0 .. (n+1)//2 - 1]. *)
Lemma where_ge0_fftfreq (n : nat) :
  (1 <= n)%nat ->
  Np.where_ge0 (Np.fftfreq n (1 / inject_Z SAMPLE_RATE)%Q)
  = seq 0 ((n + 1) / 2).
Proof.
  intros Hn.
  pose proof (bin_width_pos n Hn) as Hpos.
  pose proof (fftfreq_bins_length n Hn) as Hlen.
  unfold Np.where_ge0, Np.fftfreq.
  rewrite length_map, Hlen.
  assert (Hs : seq 0 n
               = seq 0 ((n + 1) / 2) ++ seq ((n + 1) / 2) (n - (n + 1) / 2)).
  { change ((n + 1) / 2)%nat with (0 + (n + 1) / 2)%nat at 2.
    rewrite <- seq_app. f_equal. div_lia. }
  rewrite Hs, filter_app, filter_all, filter_none.
  - apply app_nil_r.
  - intros x Hx. apply in_seq in Hx.
    rewrite (nth_map_in _ _ 0) by (rewrite Hlen; div_lia).
    pose proof (fftfreq_bins_back n x Hn ltac:(div_lia)) as Hneg.
    destruct (Qle_bool _ _) eqn:E; [|reflexivity].
    apply Qle_bool_iff in E. exfalso.
    assert (Hk : (inject_Z (nth x (Np.fftfreq_bins n) 0%Z) < 0)%Q)
      by (unfold Qlt; simpl; lia).
    apply (Qlt_not_le _ _ (Qmult_lt_compat_r _ 0%Q _ Hpos Hk)).
    rewrite Qmult_0_l. exact E.
  - intros x Hx. apply in_seq in Hx.
    rewrite (nth_map_in _ _ 0) by (rewrite Hlen; div_lia).
    rewrite fftfreq_bins_front by (try exact Hn; lia).
    apply Qle_bool_iff. apply Qmult_le_0_compat.
    + unfold Qle. simpl. lia.
    + apply Qlt_le_weak. exact Hpos.
Qed.

(** The frame of the frequency branch, in closed form. *)
Lemma spectral_frame_long (samples : list Z) :
  (1 < List.length samples)%nat ->
  let n := List.length samples in
  let val := (1 / (inject_Z (Z.of_nat n) * (1 / inject_Z SAMPLE_RATE)))%Q in
  spectral_frame samples
  = Some {| xdata :=
              map (fun j => (inject_Z (Z.of_nat j) * val)%Q)
                  (seq 0 ((n + 1) / 2));
            ydata :=
              map (fun j => Np.abs (Np.dft_coefficient samples j))
                  (seq 0 ((n + 1) / 2)) |}.
Proof.
  intros H n val. unfold spectral_frame.
  destruct (Nat.ltb_spec 1 (List.length samples)) as [_|]; [|lia].
  fold n. rewrite where_ge0_fftfreq by lia.
  unfold Np.take. do 2 f_equal.
  - apply map_ext_in. intros j Hj. apply in_seq in Hj.
    unfold Np.fftfreq. fold val.
    rewrite (nth_map_in _ _ 0)
      by (rewrite fftfreq_bins_length by lia; div_lia).
    rewrite fftfreq_bins_front by lia. reflexivity.
  - apply map_ext_in. intros j Hj. apply in_seq in Hj.
    rewrite (nth_map_in _ _ (0%R, 0%R))
      by (unfold Np.fft; rewrite length_map, length_seq; fold n; div_lia).
    unfold Np.fft. fold n.
    rewrite nth_map_seq by div_lia. reflexivity.
Qed.




(** * Further properties of the worker *)

(** ** Frames and sync bits *)

(** X1. The four high bits of a frame never reach the sample: a 12-bit
    value [v] sent with any sync pattern [s] in the high nibble comes out
    as [v]; in bytes, the sample is the low byte plus 256 times the low
    nibble of the high byte. *)
Theorem sync_bits_ignored (v s : Z) (Hv : 0 <= v <= 4095)
    (Hs : 0 <= s <= 15) :
  Wire.decode (Wire.pack_H (v + 4096 * s)) = Some v
  /\ forall b0 b1,
       Wire.decode [b0; b1]
       = Some (Z.of_N (Byte.to_N b0) + 256 * (Z.of_N (Byte.to_N b1) mod 16)).
Proof.
  split.
  - unfold Wire.pack_H, Wire.decode.
    rewrite unpack_pack by lia. rewrite mask_sync_mod.
    rewrite (Z.mul_comm 4096 s), Z_mod_plus_full.
    rewrite Z.mod_small by lia. reflexivity.
  - intros b0 b1. unfold Wire.decode. rewrite mask_sync_mod.
    unfold Wire.unpack_H.
    pose proof (to_N_lt_256 b0). pose proof (to_N_lt_256 b1).
    f_equal. div_lia.
Qed.

Lemma sync_bits_ignored_witness :
  0 <= 419 <= 4095 /\ 0 <= 15 <= 15
  /\ Wire.decode (Wire.pack_H (419 + 4096 * 15)) = Some 419.
Proof.
  split; [lia|]. split; [lia|].
  exact (proj1 (sync_bits_ignored 419 15 ltac:(lia) ltac:(lia))).
Defined.

(** ** What the worker puts on the queue and on the port *)

(** X2. Whatever the device sends and however the run ends, every value
    the worker has put on the queue lies in [0, 4095]. *)
Theorem queue_holds_samples (fuel : nat) (e : Env) (pulse_ms read_ms : Z)
    (r : flow * World) :
  serial_worker fuel e pulse_ms read_ms = Some r ->
  Forall (fun v => 0 <= v <= 4095) (data_queue (snd r)).
Proof. apply worker_queues_samples. Qed.

Lemma queue_holds_samples_witness :
  exists r,
    serial_worker 9 unplugged 5 100 = Some r
    /\ Forall (fun v => 0 <= v <= 4095) (data_queue (snd r)).
Proof.
  eexists. split; [vm_compute; reflexivity|].
  apply (queue_holds_samples 9 unplugged 5 100). vm_compute. reflexivity.
Defined.

Lemma frame_values_le (e : Env) (n : nat) :
  forall j, (List.length (frame_values e j n) <= n)%nat.
Proof.
  induction n as [|n IH]; intros j; simpl; [lia|].
  rewrite length_app. specialize (IH (S j)).
  destruct (frame_value e j); simpl; lia.
Qed.

(** When none of [n] frames was short, entry [i] is the value of frame
    [j + i]. *)
Lemma frame_values_nth (e : Env) (n : nat) :
  forall j,
    List.length (frame_values e j n) = n ->
    forall i, (i < n)%nat ->
      frame_value e (j + i) = Some (nth i (frame_values e j n) 0).
Proof.
  induction n as [|n IH]; intros j Hlen i Hi; [lia|].
  revert Hlen. simpl. rewrite length_app.
  pose proof (frame_values_le e n (S j)) as Hle.
  destruct (frame_value e j) as [v|] eqn:Ev; simpl; intros Hlen; [|lia].
  destruct i as [|i].
  - rewrite Nat.add_0_r. exact Ev.
  - replace (j + S i)%nat with (S j + i)%nat by lia.
    apply IH; lia.
Qed.

(** The streaming loop only ever appends the values of consecutive full
    frames. *)
Lemma stream_loop_appends (fuel : nat) (e : Env) (target : F64.float) :
  forall k j w x w',
    stream_loop fuel e target k j w = Some (x, w') ->
    exists n,
      data_queue w' = data_queue w ++ frame_values e j n
      /\ List.length (frame_values e j n) = n.
Proof.
  induction fuel as [|fuel IH]; intros k j w x w'; simpl; [discriminate|].
  destruct (negb (stop_seen e k) && F64.int_lt (Z.of_nat j) target).
  2: { intros [= _ <-]. exists 0%nat. simpl. rewrite app_nil_r. split;
         reflexivity. }
  destruct (data_read e j) as [raw_bytes|msg] eqn:Ed.
  2: { intros [= _ <-]. exists 0%nat. simpl. rewrite app_nil_r. split;
         reflexivity. }
  destruct (Wire.decode raw_bytes) as [value|] eqn:Ev.
  2: { intros [= _ <-]. exists 0%nat. simpl. rewrite app_nil_r. split;
         reflexivity. }
  intros H. apply IH in H. destruct H as [n [Hq Hn]].
  exists (S n). simpl. unfold frame_value. rewrite Ed, Ev. simpl.
  split; [|rewrite Hn; reflexivity].
  rewrite Hq. simpl. rewrite <- app_assoc. reflexivity.
Qed.

(** X3. The queue the worker leaves is an initial stretch of the frames
    the device sent, decoded one by one in arrival order: there is an [n]
    such that the queue has [n] entries and entry [i] is the masked value
    of the [i]-th two-byte read.  Nothing is skipped, repeated or
    reordered. *)
Theorem queue_is_prefix_of_frames (fuel : nat) (e : Env)
    (pulse_ms read_ms : Z) (r : flow * World) :
  serial_worker fuel e pulse_ms read_ms = Some r ->
  forall i,
    (i < List.length (data_queue (snd r)))%nat ->
    exists b0 b1,
      data_read e i = Got [b0; b1]
      /\ nth i (data_queue (snd r)) 0
         = Z.land (Wire.unpack_H b0 b1) 0x0FFF.
Proof.
  unfold serial_worker, serial_worker_with.
  destruct (worker_body _ _ _ _ _ _) as [[f w]|] eqn:Eb; cbn [option_map];
    [|discriminate].
  intros Hr.
  assert (Er : r = handlers (f, w)) by (injection Hr; auto).
  subst r. clear Hr.
  assert (Hw : exists n, data_queue w = frame_values e 0 n
                         /\ List.length (frame_values e 0 n) = n).
  { revert Eb. unfold worker_body.
    destruct (port_fault e);
      [intros [= _ <-]; exists 0%nat; split; reflexivity|].
    destruct (ready_line e) as [s|s|msg];
      try (intros [= _ <-]; exists 0%nat; split; reflexivity).
    destruct (negb _); [intros [= _ <-]; exists 0%nat; split; reflexivity|].
    destruct (write_fault e);
      [intros [= _ <-]; exists 0%nat; split; reflexivity|].
    destruct (status_loop _ _ _ _) as [[[x k] w1]|] eqn:Es; [|discriminate].
    apply status_loop_port in Es. destruct Es as [_ [_ [Es _]]].
    simpl in Es.
    destruct x;
      [intros [= _ <-]; exists 0%nat; split; [exact Es|reflexivity]|].
    destruct (samples_to_read read_ms) as [target|];
      [|intros [= _ <-]; exists 0%nat; split; [exact Es|reflexivity]].
    destruct (stream_loop _ _ _ _ _ _) as [[x w2]|] eqn:Et; [|discriminate].
    apply stream_loop_appends in Et. destruct Et as [n [Hq Hn]].
    rewrite Es in Hq. simpl in Hq.
    destruct x; intros [= _ <-]; exists n; simpl; split; assumption. }
  destruct Hw as [n [Hq Hn]].
  assert (Hq' : data_queue (snd (handlers (f, w))) = frame_values e 0 n).
  { destruct f as [| |[msg| |]]; simpl; exact Hq. }
  rewrite Hq'. rewrite Hn. intros i Hi.
  pose proof (frame_values_nth e n 0%nat Hn i Hi) as Hv.
  simpl in Hv. unfold frame_value in Hv.
  destruct (data_read e i) as [raw_bytes|msg]; [|discriminate].
  destruct raw_bytes as [|b0 [|b1 [|? ?]]]; simpl in Hv; try discriminate.
  exists b0, b1. split; [reflexivity|].
  injection Hv as Hv. rewrite <- Hv. reflexivity.
Qed.

Lemma queue_is_prefix_of_frames_witness :
  exists r,
    serial_worker 9 unplugged 5 100 = Some r
    /\ (2 < List.length (data_queue (snd r)))%nat
    /\ exists b0 b1,
         data_read unplugged 2 = Got [b0; b1]
         /\ nth 2 (data_queue (snd r)) 0
            = Z.land (Wire.unpack_H b0 b1) 0x0FFF.
Proof.
  eexists. split; [vm_compute; reflexivity|].
  split; [simpl; lia|].
  apply (queue_is_prefix_of_frames 9 unplugged 5 100 _ eq_refl 2%nat).
  simpl. lia.
Defined.



(** ** The target of the streaming loop *)

Lemma not_positive_int_lt (f : F64.float) (z : Z) :
  not_positive f = true -> 0 <= z -> F64.int_lt z f = false.
Proof.
  destruct f as [s|s| |s m e]; simpl; intros Hf Hz; subst;
    try reflexivity; try (apply Z.ltb_ge; exact Hz).
  destruct (0 <=? e) eqn:He.
  - apply Z.ltb_ge. apply Z.leb_le in He.
    pose proof (Z.pow_pos_nonneg 2 e ltac:(lia) He). nia.
  - apply Z.ltb_ge. apply Z.leb_gt in He.
    pose proof (Z.pow_pos_nonneg 2 (- e) ltac:(lia) ltac:(lia)). nia.
Qed.

(** Rounding keeps the sign it is given. *)
Lemma round_aux_minus (m e : Z) (l : location) :
  not_positive (binary_round_aux F64.prec F64.emax true m e l) = true.
Proof.
  unfold binary_round_aux.
  destruct (shr_fexp _ _ _ _ _) as [mrs' e'].
  destruct (shr_fexp _ _ _ _ _) as [mrs'' e''].
  destruct (shr_m mrs''); try reflexivity.
  destruct (e'' <=? _); reflexivity.
Qed.

Lemma of_int_not_positive (z : Z) (f : F64.float) :
  z <= 0 -> F64.of_int z = Some f -> not_positive f = true.
Proof.
  intros Hz. unfold F64.of_int, binary_normalize.
  destruct z as [|p|p]; [intros [= <-]; reflexivity|lia|].
  unfold binary_round.
  destruct (shl_align _ _ _) as [mz ez].
  pose proof (round_aux_minus (Z.pos mz) ez loc_Exact) as H.
  destruct (binary_round_aux _ _ _ _ _ _); intros [= <-]; exact H.
Qed.

Lemma div_1000_not_positive (f : F64.float) :
  not_positive f = true -> not_positive (F64.div f F64.f1000) = true.
Proof.
  unfold F64.div.
  change F64.f1000 with (S754_finite false 8796093022208000 (-43)).
  destruct f as [s|s| |s m e]; simpl; intros H; try exact H;
    try (subst; reflexivity).
  subst s. simpl.
  destruct (SFdiv_core_binary _ _ _ _ _ _) as [[mz ez] lz].
  apply round_aux_minus.
Qed.

Lemma mul_rate_not_positive (rate f : F64.float) :
  F64.of_int SAMPLE_RATE = Some rate ->
  not_positive f = true -> not_positive (F64.mul rate f) = true.
Proof.
  intros Hr. vm_compute in Hr. injection Hr as <-.
  unfold F64.mul.
  destruct f as [s|s| |s m e]; simpl; intros H; try exact H;
    try (subst; reflexivity).
  subst s. apply round_aux_minus.
Qed.

(** For a duration that is not positive the target is a float no count
    lies below. *)
Lemma target_not_positive (read_ms : Z) (target : F64.float) :
  read_ms <= 0 ->
  samples_to_read read_ms = Some target ->
  not_positive target = true.
Proof.
  intros Hz. unfold samples_to_read.
  destruct (F64.of_int read_ms) as [r|] eqn:Er; [|discriminate].
  destruct (F64.of_int SAMPLE_RATE) as [rate|] eqn:Erate; [|discriminate].
  intros [= <-].
  apply (mul_rate_not_positive rate _ Erate).
  apply div_1000_not_positive.
  apply (of_int_not_positive read_ms r Hz Er).
Qed.

Lemma stream_loop_idle (fuel : nat) (e : Env) (target : F64.float)
    (k j : nat) (w : World) (x : option exn) (w' : World) :
  not_positive target = true ->
  stream_loop fuel e target k j w = Some (x, w') ->
  x = None /\ w' = w.
Proof.
  intros Ht. destruct fuel as [|fuel]; simpl; [discriminate|].
  rewrite (not_positive_int_lt target (Z.of_nat j) Ht) by lia.
  rewrite andb_false_r. intros [= <- <-]. split; reflexivity.
Qed.

(** X5. With a read duration of zero or less the worker still sends its
    command and waits for the start marker, but then takes no frame at
    all: whatever the device streams, the queue stays empty. *)
Theorem nothing_read_for_nonpositive_duration (fuel : nat) (e : Env)
    (pulse_ms read_ms : Z) (r : flow * World) :
  read_ms <= 0 ->
  serial_worker fuel e pulse_ms read_ms = Some r ->
  data_queue (snd r) = [].
Proof.
  intros Hz. unfold serial_worker, serial_worker_with.
  destruct (worker_body _ _ _ _ _ _) as [[f w]|] eqn:Eb; cbn [option_map];
    [|discriminate].
  intros Hr.
  assert (Er : r = handlers (f, w)) by (injection Hr; auto).
  subst r. clear Hr.
  assert (Hq : data_queue (snd (handlers (f, w))) = data_queue w)
    by (destruct f as [| |[msg| |]]; reflexivity).
  rewrite Hq. clear Hq. revert Eb. unfold worker_body.
  destruct (port_fault e); [intros [= _ <-]; reflexivity|].
  destruct (ready_line e) as [s|s|msg]; try (intros [= _ <-]; reflexivity).
  destruct (negb _); [intros [= _ <-]; reflexivity|].
  destruct (write_fault e); [intros [= _ <-]; reflexivity|].
  destruct (status_loop _ _ _ _) as [[[x k] w1]|] eqn:Es; [|discriminate].
  apply status_loop_port in Es. destruct Es as [_ [_ [Es _]]]. simpl in Es.
  destruct x; [intros [= _ <-]; exact Es|].
  destruct (samples_to_read read_ms) as [target|] eqn:Et;
    [|intros [= _ <-]; exact Es].
  destruct (stream_loop _ _ _ _ _ _) as [[x w2]|] eqn:El; [|discriminate].
  apply stream_loop_idle in El;
    [|exact (target_not_positive read_ms target Hz Et)].
  destruct El as [-> ->]. intros [= _ <-]. exact Es.
Qed.

Lemma nothing_read_for_nonpositive_duration_witness :
  -5 <= 0
  /\ exists r,
       serial_worker 9 (streaming 40) 5 (-5) = Some r
       /\ data_queue (snd r) = [].
Proof.
  split; [lia|].
  eexists. split; [vm_compute; reflexivity|].
  apply (nothing_read_for_nonpositive_duration 9 (streaming 40) 5 (-5));
    [lia|vm_compute; reflexivity].
Defined.






(** ** The numbers in the command *)











(** * Further properties of the queue and the plot *)

(** ** The drain loop under interleaving *)

Lemma step_keeps_get_ready (s : Queue.sys) (ev : Queue.event) :
  (forall new_data,
     Queue.consumer s = Queue.AtGet new_data ->
     Queue.empty (Queue.queue s) = false) ->
  forall new_data,
    Queue.consumer (Queue.step s ev) = Queue.AtGet new_data ->
    Queue.empty (Queue.queue (Queue.step s ev)) = false.
Proof.
  destruct s as [q c bs]. intros Hinv new_data.
  destruct ev as [v| |]; simpl.
  - intros Hc. specialize (Hinv new_data Hc). simpl in Hinv.
    unfold Queue.put. destruct q; [discriminate|reflexivity].
  - destruct c; simpl; try discriminate. intros Hc. apply (Hinv _ Hc).
  - destruct c as [|nd|nd]; simpl; try discriminate.
    + destruct (Queue.empty q) eqn:Eq; simpl; [discriminate|].
      intros _. exact Eq.
    + destruct q as [|v q]; simpl; [|discriminate].
      intros Hc. apply (Hinv _ Hc).
Qed.

(** X8. With the worker putting samples between any two queue calls of
    the drain loop, in any interleaving: the batches drained so far, the
    samples the loop has in hand and the samples still queued are, in
    this order, exactly the samples put; and whenever the loop is about
    to call [get()] the queue is not empty, so that [update_plot] never
    blocks on the queue. *)
Theorem interleaved_drain_is_safe (evs : list Queue.event) :
  Queue.content (Queue.exec evs) = Queue.sent evs
  /\ forall new_data,
       Queue.consumer (Queue.exec evs) = Queue.AtGet new_data ->
       exists v rest,
         Queue.get (Queue.queue (Queue.exec evs)) = Some (v, rest).
Proof.
  split.
  - unfold Queue.exec.
    induction evs as [|ev evs IH] using rev_ind; [reflexivity|].
    rewrite fold_left_app. simpl.
    rewrite step_conserves, IH, sent_app. reflexivity.
  - assert (H : forall new_data,
               Queue.consumer (Queue.exec evs) = Queue.AtGet new_data ->
               Queue.empty (Queue.queue (Queue.exec evs)) = false).
    { unfold Queue.exec.
      induction evs as [|ev evs IH] using rev_ind; [discriminate|].
      rewrite fold_left_app. simpl. apply step_keeps_get_ready. exact IH. }
    intros new_data Hc. specialize (H new_data Hc).
    destruct (Queue.queue (Queue.exec evs)) as [|v rest]; [discriminate|].
    exists v, rest. reflexivity.
Qed.

(** X9. A drain that the worker does not interrupt ends: from the call
    of [empty()] with [q] queued, [2 * len(q) + 1] queue calls later the
    loop is left, the queue is empty and the batch is what the loop had
    in hand followed by the whole of [q], in queue order. *)
Theorem undisturbed_drain_finishes (q new_data : list Z)
    (done : list (list Z)) :
  fold_left Queue.step (repeat Queue.EvStep (2 * List.length q + 1))
    {| Queue.queue := q; Queue.consumer := Queue.AtEmpty new_data;
       Queue.batches := done |}
  = {| Queue.queue := []; Queue.consumer := Queue.Idle;
       Queue.batches := done ++ [new_data ++ q] |}.
Proof.
  revert new_data.
  induction q as [|v q IH]; intros new_data.
  - simpl. rewrite app_nil_r. reflexivity.
  - replace (2 * List.length (v :: q) + 1)%nat
      with (S (S (2 * List.length q + 1))) by (simpl; lia).
    cbn [repeat fold_left]. simpl Queue.step.
    rewrite IH. rewrite <- app_assoc. reflexivity.
Qed.

Lemma interleaved_drain_is_safe_witness :
  Queue.consumer (Queue.exec [Queue.EvPut 7; Queue.EvTick; Queue.EvStep])
  = Queue.AtGet []
  /\ exists v rest,
       Queue.get
         (Queue.queue
            (Queue.exec [Queue.EvPut 7; Queue.EvTick; Queue.EvStep]))
       = Some (v, rest).
Proof.
  split; [reflexivity|].
  exact (proj2 (interleaved_drain_is_safe
                  [Queue.EvPut 7; Queue.EvTick; Queue.EvStep])
           [] eq_refl).
Defined.

(** ** The plot over a whole run *)

(** What every call of [update_plot] does to queue and accumulator. *)
Lemma update_plot_extends (q : list Z) (p : Plot) :
  fst (update_plot q p) = []
  /\ all_samples (snd (update_plot q p)) = all_samples p ++ q.
Proof.
  unfold update_plot. rewrite drain_all.
  destruct q as [|v q]; [rewrite app_nil_r; split; reflexivity|].
  destruct (spectral_frame _); split; reflexivity.
Qed.

Lemma update_plot_keeps_current (q : list Z) (p : Plot) :
  time_line_current p -> fft_line_current p ->
  time_line_current (snd (update_plot q p))
  /\ fft_line_current (snd (update_plot q p)).
Proof.
  unfold time_line_current, fft_line_current, update_plot.
  rewrite drain_all. intros Ht Hf.
  destruct q as [|v q]; [split; assumption|].
  destruct (spectral_frame (all_samples p ++ v :: q)) as [frame|] eqn:Ef;
    simpl; rewrite Ef; split; try reflexivity.
  assert (Hlen : (List.length (all_samples p ++ v :: q) <= 1)%nat).
  { unfold spectral_frame in Ef.
    destruct (Nat.ltb_spec 1 (List.length (all_samples p ++ v :: q)));
      [discriminate|lia]. }
  rewrite spectral_frame_short in Hf; [exact Hf|].
  rewrite length_app in Hlen. simpl in Hlen. lia.
Qed.

Lemma animate_from (arrivals : list (list Z)) :
  forall p,
    time_line_current p -> fft_line_current p ->
    let r := animate arrivals [] p in
    fst r = []
    /\ all_samples (snd r) = all_samples p ++ List.concat arrivals
    /\ time_line_current (snd r)
    /\ fft_line_current (snd r).
Proof.
  induction arrivals as [|arrived rest IH]; intros p Ht Hf; simpl.
  - rewrite app_nil_r. repeat split; assumption.
  - pose proof (update_plot_extends arrived p) as [Hq Ha].
    pose proof (update_plot_keeps_current arrived p Ht Hf) as [Ht' Hf'].
    destruct (update_plot arrived p) as [q' p']. simpl in *. subst q'.
    destruct (IH p' Ht' Hf') as [H1 [H2 [H3 H4]]].
    repeat split; try assumption.
    rewrite H2, Ha, <- app_assoc. reflexivity.
Qed.

(** X10. Over any run of the animation from the blank plot of [main],
    whatever batches arrive between the calls: each call leaves the
    queue empty, the accumulator is all that arrived, in arrival order,
    and the time line shows exactly the accumulator against the sample
    numbers [0 .. N-1]. *)
Theorem accumulator_is_all_that_arrived (arrivals : list (list Z)) :
  let r := animate arrivals [] blank in
  fst r = []
  /\ all_samples (snd r) = List.concat arrivals
  /\ ydata (line_time (snd r)) = List.concat arrivals
  /\ xdata (line_time (snd r))
     = Np.arange (List.length (List.concat arrivals)).
Proof.
  destruct (animate_from arrivals blank eq_refl eq_refl)
    as [H1 [H2 [H3 _]]].
  simpl in H2. cbv zeta. unfold time_line_current in H3.
  rewrite H3, H2. repeat split; assumption.
Qed.

(** X11. Over any such run the frequency line is never stale: after
    every call it is the frame computed from the whole accumulator as it
    then stands, and it is the empty line exactly while the accumulator
    holds fewer than two samples. *)
Theorem spectrum_is_of_whole_accumulator (arrivals : list (list Z)) :
  let p := snd (animate arrivals [] blank) in
  ((1 < List.length (all_samples p))%nat ->
   spectral_frame (all_samples p) = Some (line_fft p))
  /\ ((List.length (all_samples p) <= 1)%nat ->
      line_fft p = {| xdata := []; ydata := [] |}).
Proof.
  destruct (animate_from arrivals blank eq_refl eq_refl)
    as [_ [_ [_ H]]].
  cbv zeta. unfold fft_line_current in H. split; intros Hn.
  - destruct (spectral_frame _) as [frame|] eqn:Ef.
    + rewrite H. reflexivity.
    + rewrite spectral_frame_long in Ef by exact Hn. discriminate.
  - rewrite spectral_frame_short in H by exact Hn. exact H.
Qed.

Lemma spectrum_is_of_whole_accumulator_witness :
  (1 < List.length (all_samples (snd (animate two_batches [] blank))))%nat
  /\ spectral_frame (all_samples (snd (animate two_batches [] blank)))
     = Some (line_fft (snd (animate two_batches [] blank))).
Proof.
  assert (H : (1 < List.length
                     (all_samples (snd (animate two_batches [] blank))))%nat).
  { destruct (animate_from two_batches blank eq_refl eq_refl)
      as [_ [H _]].
    rewrite H. simpl. lia. }
  split; [exact H|].
  exact (proj1 (spectrum_is_of_whole_accumulator two_batches) H).
Defined.

(** ** The frame and the axes of [main] *)

Lemma spectral_frame_some (samples : list Z) (frame : Line2D Q R) :
  spectral_frame samples = Some frame ->
  (1 < List.length samples)%nat.
Proof.
  unfold spectral_frame.
  destruct (Nat.ltb_spec 1 (List.length samples)); [intros _; assumption|].
  discriminate.
Qed.

(** X12. Every frame the frequency branch produces fits the axis [main]
    sets up with [set_xlim(0, SAMPLE_RATE / 2)]: its two series have the
    same length and every frequency lies strictly below half the sample
    rate (the Nyquist bin is never shown). *)
Theorem frame_fits_frequency_axis (samples : list Z) (frame : Line2D Q R) :
  spectral_frame samples = Some frame ->
  List.length (xdata frame) = List.length (ydata frame)
  /\ forall j,
       (j < List.length (xdata frame))%nat ->
       (nth j (xdata frame) 0 < inject_Z SAMPLE_RATE / 2)%Q.
Proof.
  intros Hf. pose proof (spectral_frame_some samples frame Hf) as Hn.
  rewrite (spectral_frame_long samples Hn) in Hf.
  injection Hf as <-. cbv zeta. cbn [xdata ydata].
  rewrite !length_map, !length_seq. split; [reflexivity|].
  intros j Hj. rewrite nth_map_seq by exact Hj.
  rewrite bin_width by lia.
  change (fst (Nat.divmod (List.length samples + 1) 1 0 1))
    with ((List.length samples + 1) / 2)%nat in Hj.
  assert (H2 : 2 * Z.of_nat j < Z.of_nat (List.length samples)) by div_lia.
  revert H2. generalize (Z.of_nat j). intros z H2.
  destruct (Z.of_nat (List.length samples)) as [|p|p] eqn:En; [lia| |lia].
  unfold Qlt, Qdiv, Qmult, Qinv, inject_Z, SAMPLE_RATE.
  cbn [Qnum Qden]. lia.
Qed.

Lemma frame_fits_frequency_axis_witness :
  exists frame,
    spectral_frame [3; 1; 2] = Some frame
    /\ List.length (xdata frame) = List.length (ydata frame).
Proof.
  eexists. split; [apply (spectral_frame_long [3; 1; 2]); simpl; lia|].
  refine (proj1 (frame_fits_frequency_axis [3; 1; 2] _ _)).
  apply (spectral_frame_long [3; 1; 2]). simpl. lia.
Defined.

(** ** The bin at 0 Hz *)






(** ** Rescaling *)

Lemma update_plot_rescales (q : list Z) (p : Plot) :
  let p' := snd (update_plot q p) in
  ax_time_rescaled p'
  = (ax_time_rescaled p + if Queue.empty q then 0 else 1)%nat
  /\ ax_fft_rescaled p'
     = (ax_fft_rescaled p
        + if (1 <? List.length (all_samples p'))%nat && negb (Queue.empty q)
          then 1 else 0)%nat.
Proof.
  cbv zeta. unfold update_plot. rewrite drain_all.
  destruct q as [|v q]; simpl Queue.empty; cbn [negb].
  - rewrite andb_false_r. simpl. split; lia.
  - rewrite andb_true_r.
    destruct (spectral_frame (all_samples p ++ v :: q)) as [frame|] eqn:Ef;
      cbn [snd ax_time_rescaled ax_fft_rescaled all_samples].
    + apply spectral_frame_some in Ef.
      destruct (Nat.ltb_spec 1 (List.length (all_samples p ++ v :: q)));
        [split; lia|lia].
    + destruct (Nat.ltb_spec 1 (List.length (all_samples p ++ v :: q)))
        as [Hlt|]; [|split; lia].
      rewrite spectral_frame_long in Ef by exact Hlt. discriminate.
Qed.

Lemma busy_ticks_cons (a : list Z) (l : list (list Z)) :
  busy_ticks (a :: l)
  = ((if Queue.empty a then 0 else 1) + busy_ticks l)%nat.
Proof. unfold busy_ticks. simpl. destruct (Queue.empty a); reflexivity. Qed.

Lemma animate_rescales (arrivals : list (list Z)) :
  forall p,
    let r := snd (animate arrivals [] p) in
    let slack :=
      if (1 <=? List.length (all_samples p))%nat then 0%nat else 1%nat in
    ax_time_rescaled r = (ax_time_rescaled p + busy_ticks arrivals)%nat
    /\ (ax_fft_rescaled r <= ax_fft_rescaled p + busy_ticks arrivals)%nat
    /\ (ax_fft_rescaled p + busy_ticks arrivals
        <= ax_fft_rescaled r + slack)%nat.
Proof.
  induction arrivals as [|a rest IH]; intros p; cbv zeta.
  - unfold busy_ticks. simpl. repeat split; lia.
  - simpl animate. rewrite busy_ticks_cons.
    pose proof (update_plot_extends a p) as [Hq Ha].
    pose proof (update_plot_rescales a p) as [Ht Hf].
    cbv zeta in Ht, Hf. rewrite Ha in Hf.
    destruct (update_plot a p) as [q' p']. simpl in Hq, Ha, Ht, Hf.
    subst q'. specialize (IH p'). cbv zeta in IH. rewrite Ha in IH.
    destruct IH as [I1 [I2 I3]].
    destruct a as [|v a]; simpl Queue.empty in *; cbn [negb] in *.
    + rewrite andb_false_r in Hf. rewrite app_nil_r in I3.
      repeat split; lia.
    + rewrite andb_true_r in Hf.
      rewrite length_app in *. simpl List.length in *.
      destruct (Nat.ltb_spec 1 (List.length (all_samples p) + S (List.length a)));
        destruct (Nat.leb_spec 1 (List.length (all_samples p) + S (List.length a)));
        destruct (Nat.leb_spec 1 (List.length (all_samples p)));
        repeat split; lia.
Qed.

(** X14. Over any run of the animation from the blank plot the time axis
    is rescaled once for every call that found samples queued, and the
    frequency axis on every such call but at most one: it is never
    rescaled more often than the time axis and lags it by one at most. *)
Theorem axes_rescaled_per_batch (arrivals : list (list Z)) :
  let p := snd (animate arrivals [] blank) in
  ax_time_rescaled p = busy_ticks arrivals
  /\ (ax_fft_rescaled p <= ax_time_rescaled p)%nat
  /\ (ax_time_rescaled p <= ax_fft_rescaled p + 1)%nat.
Proof.
  pose proof (animate_rescales arrivals blank) as H. cbv zeta in *.
  simpl in H. destruct H as [H1 [H2 H3]].
  repeat split; lia.
Qed.

(** * A whole run of the worker *)




